(** * Bracket balance scanner: count_parens.py, count_curlies.py,
      count_balance.py and find_unmatched.py

    The four scripts read a text file into [lines], fix a half-open range of
    line indices [start, end) and walk the characters of those lines with
    integer counters.  The embedding below keeps the loops as they are written
    (index ranges, [lines[idx]] with Python's indexing rules, one counter
    update per character) and takes the document, the range and the two
    delimiter characters as arguments, so that the same loop serves the
    parenthesis and the curly-brace scripts.  Characters are [ascii]; the
    scripts only ever compare them for equality. *)

From Stdlib Require Import ZArith List String Ascii Bool Lia.
Import ListNotations.

Open Scope Z_scope.

(** ** Python primitives used by the scripts *)

Module Py.

(** The only exception the loops can raise is the [IndexError] of
    [lines[idx]]; the specification calls it RangeError. *)
Inductive outcome (A : Type) : Type :=
| Ok (a : A)
| IndexError.

Arguments Ok {A} a.
Arguments IndexError {A}.

Definition bind {A B : Type} (m : outcome A) (k : A -> outcome B) : outcome B :=
  match m with
  | Ok a => k a
  | IndexError => IndexError
  end.

Definition fmap {A B : Type} (f : A -> B) (m : outcome A) : outcome B :=
  bind m (fun a => Ok (f a)).

(** [iota start n] is [start; start+1; ...] with [n] elements. *)
Fixpoint iota (start : Z) (n : nat) : list Z :=
  match n with
  | O => []
  | S n' => start :: iota (start + 1) n'
  end.

(** [iota_down start n] is [start; start-1; ...] with [n] elements. *)
Fixpoint iota_down (start : Z) (n : nat) : list Z :=
  match n with
  | O => []
  | S n' => start :: iota_down (start - 1) n'
  end.

(** [range(start, stop)]: empty when [stop <= start]. *)
Definition range (start stop : Z) : list Z :=
  iota start (Z.to_nat (stop - start)).

(** [range(start, stop, -1)]: empty when [start <= stop]. *)
Definition range_down (start stop : Z) : list Z :=
  iota_down start (Z.to_nat (start - stop)).

(** [lines[idx]]: a negative index counts from the end of the list, and an
    index outside [-len, len) raises. *)
Definition getitem (lines : list string) (idx : Z) : outcome string :=
  let n := Z.of_nat (List.length lines) in
  let i := if idx <? 0 then idx + n else idx in
  if (0 <=? i) && (i <? n)
  then match nth_error lines (Z.to_nat i) with
       | Some line => Ok line
       | None => IndexError
       end
  else IndexError.

(** [for ch in line] visits the characters of the string in order. *)
Definition chars (line : string) : list ascii := list_ascii_of_string line.

(** [reversed(line)] visits them from the last to the first. *)
Definition reversed (line : string) : list ascii := rev (chars line).

End Py.

Import Py.

Notation "x <- m ;; k" := (bind m (fun x => k))
  (at level 61, m at next level, right associativity).

(** ** The forward scans *)

(** The two globals of count_parens.py and count_curlies.py. *)
Record counters : Type := Counters { count : Z; min_count : Z }.

(** The if / elif of every script: the character is compared with the opening
    delimiter first, and with the closing one only when that fails. *)
Definition tally (o c : ascii) (count : Z) (ch : ascii) : Z :=
  if (ch =? o)%char then count + 1
  else if (ch =? c)%char then count - 1
  else count.

(** Body of the inner loop of count_parens.py and count_curlies.py: update
    [count], then [min_count = min(min_count, count)], after every character. *)
Definition step (o c : ascii) (st : counters) (ch : ascii) : counters :=
  let count' := tally o c (count st) ch in
  Counters count' (Z.min (min_count st) count').

(** [for ch in line: ...] *)
Definition scan_line (o c : ascii) (st : counters) (line : string) : counters :=
  fold_left (step o c) (chars line) st.

(** [for idx in ...: line = lines[idx]; for ch in line: ...] *)
Fixpoint scan_lines (o c : ascii) (lines : list string) (idxs : list Z)
    (st : counters) : outcome counters :=
  match idxs with
  | [] => Ok st
  | idx :: rest =>
      line <- getitem lines idx ;;
      scan_lines o c lines rest (scan_line o c st line)
  end.

(** The loop of count_parens.py / count_curlies.py with its initialisation
    [count = 0; min_count = 0]. *)
Definition scan (o c : ascii) (lines : list string) (start end_ : Z)
  : outcome counters :=
  scan_lines o c lines (range start end_) (Counters 0 0).

(** The inner loop of count_balance.py keeps a single counter. *)
Definition net_line (o c : ascii) (n : Z) (line : string) : Z :=
  fold_left (tally o c) (chars line) n.

Fixpoint net_lines (o c : ascii) (lines : list string) (idxs : list Z)
    (n : Z) : outcome Z :=
  match idxs with
  | [] => Ok n
  | idx :: rest =>
      line <- getitem lines idx ;;
      net_lines o c lines rest (net_line o c n line)
  end.

(** One pass of count_balance.py: [parens = 0; for idx in range(start, end): ...]. *)
Definition net_pass (o c : ascii) (lines : list string) (start end_ : Z)
  : outcome Z :=
  net_lines o c lines (range start end_) 0.

(** count_balance.py: the parenthesis pass, then the curly-brace pass. *)
Definition count_balance (lines : list string) (start end_ : Z)
  : outcome (Z * Z) :=
  parens <- net_pass "(" ")" lines start end_ ;;
  curlies <- net_pass "{" "}" lines start end_ ;;
  Ok (parens, curlies).

(** The passes of count_balance.py for an arbitrary list of delimiter pairs,
    one pass after the other, each with a counter of its own. *)
Fixpoint count_multiple_pairs (lines : list string) (start end_ : Z)
    (pairs : list (ascii * ascii)) : outcome (list Z) :=
  match pairs with
  | [] => Ok []
  | (o, c) :: rest =>
      n <- net_pass o c lines start end_ ;;
      ns <- count_multiple_pairs lines start end_ rest ;;
      Ok (n :: ns)
  end.

(** ** The reverse scan of find_unmatched.py *)

(** What the inner loop hands back to the outer one: either it ran to the end
    of the line with a new counter, or it printed and raised [SystemExit]. *)
Inductive flow : Type :=
| Continue (count : Z)
| Exited.

(** [for ch in reversed(lines[idx]): ...]; the test [count == 0] sits inside
    the branch of the opening delimiter only. *)
Fixpoint rev_chars (o c : ascii) (chs : list ascii) (count : Z) : flow :=
  match chs with
  | [] => Continue count
  | ch :: rest =>
      if (ch =? o)%char then
        let count' := count - 1 in
        if count' =? 0 then Exited else rev_chars o c rest count'
      else if (ch =? c)%char then rev_chars o c rest (count + 1)
      else rev_chars o c rest count
  end.

(** The outer loop; [Some idx] is the index at which the script exits, [None]
    the fall-through to the final print. *)
Fixpoint rev_lines (o c : ascii) (lines : list string) (idxs : list Z)
    (count : Z) : outcome (option Z) :=
  match idxs with
  | [] => Ok None
  | idx :: rest =>
      line <- getitem lines idx ;;
      match rev_chars o c (reversed line) count with
      | Exited => Ok (Some idx)
      | Continue count' => rev_lines o c lines rest count'
      end
  end.

(** [count = 1; for idx in range(end-1, start-1, -1): ...] *)
Definition find_unmatched (o c : ascii) (lines : list string) (start end_ : Z)
  : outcome (option Z) :=
  rev_lines o c lines (range_down (end_ - 1) (start - 1)) 1.

(** ** What the scripts print *)

Inductive token : Type :=
| Str (s : string)
| Int (z : Z).

Inductive termination : Type :=
| Finished        (* the script ran to its last statement *)
| SystemExit      (* raise SystemExit *)
| Traceback.      (* uncaught IndexError *)

Record transcript : Type :=
  Transcript { stdout : list (list token); status : termination }.

(** The line number shown to the user: [idx+1]. *)
Definition line_number (idx : Z) : Z := idx + 1.

Definition count_parens_py (lines : list string) (start end_ : Z) : transcript :=
  match scan "(" ")" lines start end_ with
  | Ok st => Transcript [[Str "net"; Int (count st); Str "min"; Int (min_count st)]]
                        Finished
  | IndexError => Transcript [] Traceback
  end.

Definition count_curlies_py (lines : list string) (start end_ : Z) : transcript :=
  match scan "{" "}" lines start end_ with
  | Ok st => Transcript [[Str "curlies net"; Int (count st);
                          Str "min"; Int (min_count st)]] Finished
  | IndexError => Transcript [] Traceback
  end.

Definition count_balance_py (lines : list string) (start end_ : Z) : transcript :=
  match net_pass "(" ")" lines start end_ with
  | Ok parens =>
      match net_pass "{" "}" lines start end_ with
      | Ok curlies => Transcript [[Str "paren net"; Int parens];
                                  [Str "curlies net"; Int curlies]] Finished
      | IndexError => Transcript [[Str "paren net"; Int parens]] Traceback
      end
  | IndexError => Transcript [] Traceback
  end.

Definition find_unmatched_py (lines : list string) (start end_ : Z) : transcript :=
  match find_unmatched "{" "}" lines start end_ with
  | Ok (Some idx) =>
      Transcript [[Str "Unmatched { likely opened at line"; Int (line_number idx)]]
                 SystemExit
  | Ok None => Transcript [[Str "No unmatched { found"]] Finished
  | IndexError => Transcript [] Traceback
  end.

(** ** The operations of the specification, read off the scripts *)

Record ScanResult : Type := { net : Z; minimum : Z }.

Definition result_of (st : counters) : ScanResult :=
  {| net := count st; minimum := min_count st |}.

(** count_pair: the scan of count_parens.py / count_curlies.py. *)
Definition count_pair (lines : list string) (start end_ : Z) (o c : ascii)
  : outcome ScanResult :=
  fmap result_of (scan o c lines start end_).

(** find_unmatched_open: the reverse scan of find_unmatched.py; the index is
    0-based, the script prints [line_number] of it. *)
Definition find_unmatched_open (lines : list string) (start end_ : Z) (o c : ascii)
  : outcome (option Z) :=
  find_unmatched o c lines start end_.

(** The range invariant of the specification. *)
Definition valid_range (lines : list string) (start end_ : Z) : Prop :=
  0 <= start <= end_ /\ end_ <= Z.of_nat (List.length lines).


(** ** Reference notions the properties are stated with *)

(** [lines[start:end]] for non-negative indices. *)
Definition slice (lines : list string) (start end_ : Z) : list string :=
  firstn (Z.to_nat (end_ - start)) (skipn (Z.to_nat start) lines).

(** The line an in-bounds, non-negative index denotes. *)
Definition line_at (lines : list string) (idx : Z) : string :=
  nth (Z.to_nat idx) lines EmptyString.

(** All the characters of a list of lines, in reading order. *)
Definition text (ls : list string) : list ascii := List.concat (map chars ls).

Definition range_chars (lines : list string) (start end_ : Z) : list ascii :=
  text (slice lines start end_).

(** Number of occurrences of a character in a document. *)
Definition occurrences (ch : ascii) (lines : list string) : Z :=
  Z.of_nat (count_occ ascii_dec (text lines) ch).

(** Sum of the contributions of the characters of a text to the counter. *)
Fixpoint balance (o c : ascii) (chs : list ascii) : Z :=
  match chs with
  | [] => 0
  | ch :: rest => tally o c 0 ch + balance o c rest
  end.

(** The first character of a text that is one of the two delimiters. *)
Definition first_tracked (o c : ascii) (chs : list ascii) : option ascii :=
  find (fun ch => (ch =? o)%char || (ch =? c)%char) chs.

(** The reverse scan as the specification words it.  The characters of the
    range are listed in the order of the walk, last line first and every line
    from its last character to its first, each with the index of its line. *)
Definition numbered (lines : list string) (start end_ : Z) : list (Z * string) :=
  combine (range start end_) (slice lines start end_).

Definition reverse_trace (lines : list string) (start end_ : Z) : list (Z * ascii) :=
  flat_map (fun il => map (pair (fst il)) (rev (chars (snd il))))
           (rev (numbered lines start end_)).

(** "decrement on open_char, increment on close_char", a character being
    looked up as an opening delimiter first. *)
Definition counter_update (o c : ascii) (counter : Z) (ch : ascii) : Z :=
  if (ch =? o)%char then counter - 1
  else if (ch =? c)%char then counter + 1
  else counter.

(** Walk the trace and stop at the first point where the counter is 0,
    whatever character brought it there. *)
Fixpoint first_zero (o c : ascii) (counter : Z) (tr : list (Z * ascii))
  : option Z :=
  match tr with
  | [] => None
  | (idx, ch) :: tr' =>
      let counter' := counter_update o c counter ch in
      if counter' =? 0 then Some idx else first_zero o c counter' tr'
  end.

Definition find_unmatched_open_spec (lines : list string) (start end_ : Z)
    (o c : ascii) : option Z :=
  first_zero o c 1 (reverse_trace lines start end_).

(** Documents used in the examples. *)
Definition doc_example : list string := ["a("; "b)"; "c("]%string.
Definition doc_two_opens : list string := ["(("; ")"]%string.
Definition doc_one_line : list string := ["("]%string.
Definition doc_close_first : list string := ["x)"; "(("]%string.
Definition doc_close_open : list string := [")("]%string.
Definition doc_open_close : list string := ["()"]%string.
Definition doc_curlies : list string := ["{"; "}"; "{"]%string.

(** ** Reading the document and the scripts as they are run *)

(** A character of the decoded text is a Unicode code point. *)
Definition codepoint : Type := N.

(** What [Path('src/App.tsx').read_text(encoding='utf-8')] hands to line 2 of
    every script: the decoded text, or an exception (the file is missing or
    unreadable, or its bytes are not UTF-8) that ends the script there. *)
Inductive read_result : Type :=
| ReadText (t : list codepoint)
| ReadError.

(** The line boundaries of [str.splitlines]: \n, \v, \f, \r, \x1c, \x1d,
    \x1e, \x85, U+2028 and U+2029. *)
Definition is_boundary (cp : codepoint) : bool :=
  ((10 <=? cp) && (cp <=? 13) || (28 <=? cp) && (cp <=? 30) || (cp =? 133)
   || (cp =? 8232) || (cp =? 8233))%N.

(** [splitlines] without keepends, on code points: [cur] holds the line
    being read, last character first; \r\n counts as one boundary; a boundary
    at the very end of the text opens no further line. *)
Fixpoint split_cp (cur : list codepoint) (s : list codepoint)
  : list (list codepoint) :=
  match s with
  | [] =>
      match cur with
      | [] => []
      | _ :: _ => [rev cur]
      end
  | cp :: rest =>
      if is_boundary cp then
        rev cur ::
        match rest with
        | cp' :: rest' =>
            if ((cp =? 13) && (cp' =? 10))%N
            then split_cp [] rest'
            else split_cp [] rest
        | [] => split_cp [] rest
        end
      else split_cp (cp :: cur) rest
  end.

(** [text.splitlines()] *)
Definition splitlines_cp (t : list codepoint) : list (list codepoint) :=
  split_cp [] t.

(** The loops compare a character with '(', ')', '{' and '}' and with
    nothing else.  A code point below U+0100 is read as the [ascii] of the
    same number; a code point from U+0100 on is none of the four delimiters
    and is read as U+0000, which is none of them either. *)
Definition read_char (cp : codepoint) : ascii :=
  if (cp <? 256)%N then ascii_of_N cp else "000"%char.

Definition read_line (line : list codepoint) : string :=
  string_of_list_ascii (map read_char line).

(** The same splitting for a text whose code points are all below U+0100,
    held in a [string] (one [ascii] per code point, not per byte): of the
    boundaries only \n, \v, \f, \r, \x1c, \x1d, \x1e and \x85 can occur
    in it. *)
Definition is_linebreak (ch : ascii) : bool :=
  let n := N_of_ascii ch in
  ((10 <=? n) && (n <=? 13) || (28 <=? n) && (n <=? 30) || (n =? 133))%N.

Fixpoint split_from (cur : list ascii) (s : list ascii) : list string :=
  match s with
  | [] =>
      match cur with
      | [] => []
      | _ :: _ => [string_of_list_ascii (rev cur)]
      end
  | ch :: rest =>
      if is_linebreak ch then
        string_of_list_ascii (rev cur) ::
        match rest with
        | ch' :: rest' =>
            if (ch =? "013")%char && (ch' =? "010")%char
            then split_from [] rest'
            else split_from [] rest
        | [] => split_from [] rest
        end
      else split_from (ch :: cur) rest
  end.

(** [text.splitlines()] for such a text. *)
Definition splitlines (file_text : string) : list string :=
  split_from [] (list_ascii_of_string file_text).


(** A line with every character other than the two delimiters removed. *)
Definition keep_tracked (o c : ascii) (line : string) : string :=
  string_of_list_ascii
    (filter (fun ch => (ch =? o)%char || (ch =? c)%char) (chars line)).

(** The scripts with their literals: what [read_text] gives is the input,
    [start = 15762] and [end = 16871] are fixed. *)
Module Script.

Definition start : Z := 15762.
Definition end_ : Z := 16871.

(** A run either dies in line 2 of the exception of [read_text], before
    anything is printed, or goes on to the loops. *)
Inductive run : Type :=
| ReadFailed
| Ran (t : transcript).

(** [lines = Path(...).read_text(encoding='utf-8').splitlines()] *)
Definition lines_of (t : list codepoint) : list string :=
  map read_line (splitlines_cp t).

Definition count_parens (r : read_result) : run :=
  match r with
  | ReadText t => Ran (count_parens_py (lines_of t) start end_)
  | ReadError => ReadFailed
  end.

Definition count_curlies (r : read_result) : run :=
  match r with
  | ReadText t => Ran (count_curlies_py (lines_of t) start end_)
  | ReadError => ReadFailed
  end.

Definition count_balance (r : read_result) : run :=
  match r with
  | ReadText t => Ran (count_balance_py (lines_of t) start end_)
  | ReadError => ReadFailed
  end.

Definition find_unmatched (r : read_result) : run :=
  match r with
  | ReadText t => Ran (find_unmatched_py (lines_of t) start end_)
  | ReadError => ReadFailed
  end.

(** The run got past line 2 and ended in the uncaught IndexError of
    [lines[idx]]. *)
Definition dies_of_index_error (r : run) : Prop :=
  match r with
  | Ran t => status t = Traceback
  | ReadFailed => False
  end.

End Script.

(** * Properties *)

(** ** Indexing and ranges *)

Section Indexing.

Variable lines : list string.

Lemma getitem_nonneg (idx : Z) :
  0 <= idx < Z.of_nat (List.length lines) ->
  getitem lines idx = Ok (line_at lines idx).
Proof.
  intros H. unfold getitem, line_at.
  destruct (Z.ltb_spec idx 0) as [Hneg|_]; [lia|].
  destruct (Z.leb_spec 0 idx) as [_|Hlt]; [|lia].
  destruct (Z.ltb_spec idx (Z.of_nat (List.length lines))) as [_|Hge]; [|lia].
  cbn [andb].
  destruct (nth_error lines (Z.to_nat idx)) as [line|] eqn:E.
  - now rewrite (nth_error_nth _ _ _ E).
  - apply nth_error_None in E. lia.
Qed.

Lemma getitem_in_bounds (idx : Z) :
  - Z.of_nat (List.length lines) <= idx < Z.of_nat (List.length lines) ->
  exists line, getitem lines idx = Ok line.
Proof.
  intros H. unfold getitem.
  set (len := Z.of_nat (List.length lines)) in *.
  set (i := if idx <? 0 then idx + len else idx).
  assert (Hi : 0 <= i < len).
  { unfold i. destruct (Z.ltb_spec idx 0); lia. }
  destruct (Z.leb_spec 0 i) as [_|Hlt]; [|lia].
  destruct (Z.ltb_spec i len) as [_|Hge]; [|lia].
  cbn [andb].
  destruct (nth_error lines (Z.to_nat i)) as [line|] eqn:E.
  - now exists line.
  - apply nth_error_None in E. unfold len in Hi. lia.
Qed.

Lemma getitem_out_of_bounds (idx : Z) :
  idx < - Z.of_nat (List.length lines) \/ Z.of_nat (List.length lines) <= idx ->
  getitem lines idx = IndexError.
Proof.
  intros H. unfold getitem.
  set (len := Z.of_nat (List.length lines)) in *.
  destruct (Z.ltb_spec idx 0) as [Hneg|Hpos].
  - destruct (Z.leb_spec 0 (idx + len)) as [Hle|_]; [|reflexivity].
    destruct (Z.ltb_spec (idx + len) len); lia.
  - destruct (Z.leb_spec 0 idx) as [_|]; [|reflexivity].
    destruct (Z.ltb_spec idx len) as [|_]; [lia|reflexivity].
Qed.

End Indexing.

Lemma In_iota (x start : Z) (n : nat) :
  In x (iota start n) <-> start <= x < start + Z.of_nat n.
Proof.
  revert start. induction n as [|n IH]; intros start; cbn [iota In].
  - lia.
  - rewrite IH. lia.
Qed.

Lemma In_iota_down (x start : Z) (n : nat) :
  In x (iota_down start n) <-> start - Z.of_nat n < x <= start.
Proof.
  revert start. induction n as [|n IH]; intros start; cbn [iota_down In].
  - lia.
  - rewrite IH. lia.
Qed.

Lemma iota_app (start : Z) (a b : nat) :
  iota start (a + b) = iota start a ++ iota (start + Z.of_nat a) b.
Proof.
  revert start. induction a as [|a IH]; intros start.
  - cbn. f_equal. lia.
  - cbn [Nat.add iota app]. rewrite IH. do 3 f_equal. lia.
Qed.

Lemma iota_snoc (start : Z) (n : nat) :
  iota start (S n) = iota start n ++ [start + Z.of_nat n].
Proof.
  replace (S n) with (n + 1)%nat by lia. now rewrite iota_app.
Qed.

Lemma iota_down_rev (start : Z) (n : nat) :
  iota_down start n = rev (iota (start - Z.of_nat n + 1) n).
Proof.
  revert start. induction n as [|n IH]; intros start.
  - reflexivity.
  - rewrite iota_snoc, rev_app_distr. cbn [iota_down rev app].
    rewrite IH. f_equal; [lia|]. do 2 f_equal. lia.
Qed.

Lemma range_split (start mid end_ : Z) :
  start <= mid <= end_ ->
  range start end_ = range start mid ++ range mid end_.
Proof.
  intros H. unfold range.
  replace (Z.to_nat (end_ - start))
    with (Z.to_nat (mid - start) + Z.to_nat (end_ - mid))%nat by lia.
  rewrite iota_app. do 2 f_equal. lia.
Qed.

Lemma range_empty (start end_ : Z) : end_ <= start -> range start end_ = [].
Proof.
  intros H. unfold range. now replace (Z.to_nat (end_ - start)) with 0%nat by lia.
Qed.

Lemma range_cons (start end_ : Z) :
  start < end_ -> range start end_ = start :: range (start + 1) end_.
Proof.
  intros H. unfold range.
  replace (Z.to_nat (end_ - start)) with (S (Z.to_nat (end_ - (start + 1)))) by lia.
  reflexivity.
Qed.

Lemma range_snoc (start end_ : Z) :
  start < end_ -> range start end_ = range start (end_ - 1) ++ [end_ - 1].
Proof.
  intros H. rewrite (range_split start (end_ - 1) end_) by lia.
  f_equal. rewrite range_cons by lia. now rewrite range_empty by lia.
Qed.

Lemma In_range (x start end_ : Z) :
  In x (range start end_) <-> start <= x < end_.
Proof. unfold range. rewrite In_iota. lia. Qed.

(** [range(end-1, start-1, -1)] walks [range(start, end)] backwards. *)
Lemma range_down_rev (start end_ : Z) :
  range_down (end_ - 1) (start - 1) = rev (range start end_).
Proof.
  unfold range_down, range. rewrite iota_down_rev.
  replace (end_ - 1 - (start - 1)) with (end_ - start) by lia.
  destruct (Z.le_gt_cases end_ start) as [H|H].
  - now replace (Z.to_nat (end_ - start)) with 0%nat by lia.
  - do 2 f_equal. lia.
Qed.

Lemma skipn_nth_cons {A : Type} (d : A) (l : list A) (n : nat) :
  (n < List.length l)%nat -> skipn n l = nth n l d :: skipn (S n) l.
Proof.
  revert n. induction l as [|x l IH]; intros n H; cbn in H; [lia|].
  destruct n as [|n]; [reflexivity|].
  cbn [skipn nth]. rewrite IH by lia. reflexivity.
Qed.

Lemma map_line_at_iota (lines : list string) (n : nat) (start : Z) :
  0 <= start -> start + Z.of_nat n <= Z.of_nat (List.length lines) ->
  map (line_at lines) (iota start n) = firstn n (skipn (Z.to_nat start) lines).
Proof.
  revert start. induction n as [|n IH]; intros start H0 H1; [reflexivity|].
  cbn [iota map].
  rewrite (skipn_nth_cons EmptyString lines (Z.to_nat start)) by lia.
  cbn [firstn]. unfold line_at at 1. f_equal.
  rewrite IH by lia. do 2 f_equal. lia.
Qed.

Lemma map_line_at_range (lines : list string) (start end_ : Z) :
  valid_range lines start end_ ->
  map (line_at lines) (range start end_) = slice lines start end_.
Proof.
  intros [H0 H1]. unfold range, slice. apply map_line_at_iota; lia.
Qed.

Lemma slice_split (lines : list string) (start mid end_ : Z) :
  0 <= start <= mid -> mid <= end_ <= Z.of_nat (List.length lines) ->
  slice lines start end_ = slice lines start mid ++ slice lines mid end_.
Proof.
  intros H0 H1.
  rewrite <- !map_line_at_range by (unfold valid_range; lia).
  rewrite (range_split start mid end_) by lia. apply map_app.
Qed.

Lemma slice_full (lines : list string) :
  slice lines 0 (Z.of_nat (List.length lines)) = lines.
Proof.
  unfold slice. cbn [Z.to_nat skipn].
  rewrite Z.sub_0_r, Nat2Z.id. apply firstn_all.
Qed.

Lemma valid_range_indices (lines : list string) (start end_ : Z) :
  valid_range lines start end_ ->
  Forall (fun idx => 0 <= idx < Z.of_nat (List.length lines)) (range start end_).
Proof.
  intros [H0 H1]. apply Forall_forall. intros x Hx.
  apply In_range in Hx. lia.
Qed.

(** ** The forward scans *)

Section Forward.

Variables o c : ascii.

Lemma tally_shift (n : Z) (ch : ascii) : tally o c n ch = n + tally o c 0 ch.
Proof.
  unfold tally. destruct (ch =? o)%char; [lia|]. destruct (ch =? c)%char; lia.
Qed.

Lemma fold_tally (chs : list ascii) (n : Z) :
  fold_left (tally o c) chs n = n + balance o c chs.
Proof.
  revert n. induction chs as [|ch chs IH]; intros n; cbn [fold_left balance].
  - lia.
  - rewrite IH, (tally_shift n). lia.
Qed.

Lemma balance_app (a b : list ascii) :
  balance o c (a ++ b) = balance o c a + balance o c b.
Proof.
  induction a as [|ch a IH]; cbn [app balance]; [reflexivity|]. rewrite IH. lia.
Qed.

Lemma balance_rev (chs : list ascii) : balance o c (rev chs) = balance o c chs.
Proof.
  induction chs as [|ch chs IH]; [reflexivity|].
  cbn [rev]. rewrite balance_app, IH. cbn [balance]. lia.
Qed.

(** [min_count] never feeds back into [count]. *)
Lemma fold_step_count (chs : list ascii) (st : counters) :
  count (fold_left (step o c) chs st) = count st + balance o c chs.
Proof.
  revert st. induction chs as [|ch chs IH]; intros st; cbn [fold_left balance].
  - lia.
  - rewrite IH. cbn [step count]. rewrite (tally_shift (count st)). lia.
Qed.

Lemma fold_step_min_le_start (chs : list ascii) (st : counters) :
  min_count (fold_left (step o c) chs st) <= min_count st.
Proof.
  revert st. induction chs as [|ch chs IH]; intros st; cbn [fold_left].
  - lia.
  - etransitivity; [apply IH|]. cbn [step min_count]. lia.
Qed.

Lemma fold_step_min_le_count (chs : list ascii) (st : counters) :
  min_count st <= count st ->
  min_count (fold_left (step o c) chs st) <= count (fold_left (step o c) chs st).
Proof.
  revert st. induction chs as [|ch chs IH]; intros st H; cbn [fold_left].
  - exact H.
  - apply IH. cbn [step min_count count]. lia.
Qed.

(** The minimum is at most the counter after any prefix of the text. *)
Lemma fold_step_min_le_prefix (pre post : list ascii) (st : counters) :
  min_count (fold_left (step o c) (pre ++ post) st)
  <= count st + balance o c pre \/ pre = [].
Proof.
  destruct pre as [|ch pre]; [now right|left].
  rewrite fold_left_app.
  etransitivity; [apply fold_step_min_le_start|].
  rewrite <- fold_step_count.
  revert st. generalize ch. clear ch.
  induction pre as [|ch' pre IH]; intros ch st.
  - cbn [fold_left step min_count count]. lia.
  - change (fold_left (step o c) (ch :: ch' :: pre) st)
      with (fold_left (step o c) (ch' :: pre) (step o c st ch)).
    apply IH.
Qed.

Lemma scan_line_text (ls : list string) (st : counters) :
  fold_left (scan_line o c) ls st = fold_left (step o c) (text ls) st.
Proof.
  revert st. induction ls as [|l ls IH]; intros st; [reflexivity|].
  unfold text. cbn [map List.concat fold_left].
  rewrite fold_left_app. rewrite IH. reflexivity.
Qed.

Lemma net_line_text (ls : list string) (n : Z) :
  fold_left (net_line o c) ls n = n + balance o c (text ls).
Proof.
  revert n. induction ls as [|l ls IH]; intros n.
  - cbn. lia.
  - unfold text. cbn [map List.concat fold_left].
    rewrite IH, balance_app. unfold net_line. rewrite fold_tally.
    unfold text. lia.
Qed.

Variable lines : list string.

Lemma scan_lines_ok (idxs : list Z) (st : counters) :
  Forall (fun idx => 0 <= idx < Z.of_nat (List.length lines)) idxs ->
  scan_lines o c lines idxs st
  = Ok (fold_left (scan_line o c) (map (line_at lines) idxs) st).
Proof.
  intros H. revert st. induction H as [|idx idxs Hidx _ IH]; intros st.
  - reflexivity.
  - cbn [scan_lines map fold_left]. rewrite getitem_nonneg by exact Hidx.
    cbn [bind]. apply IH.
Qed.

Lemma net_lines_ok (idxs : list Z) (n : Z) :
  Forall (fun idx => 0 <= idx < Z.of_nat (List.length lines)) idxs ->
  net_lines o c lines idxs n
  = Ok (fold_left (net_line o c) (map (line_at lines) idxs) n).
Proof.
  intros H. revert n. induction H as [|idx idxs Hidx _ IH]; intros n.
  - reflexivity.
  - cbn [net_lines map fold_left]. rewrite getitem_nonneg by exact Hidx.
    cbn [bind]. apply IH.
Qed.

(** On a valid range the loop of count_parens.py is a fold over the
    characters of [lines[start:end]]. *)
Lemma scan_valid (start end_ : Z) :
  valid_range lines start end_ ->
  scan o c lines start end_
  = Ok (fold_left (step o c) (range_chars lines start end_) (Counters 0 0)).
Proof.
  intros H. unfold scan, range_chars.
  rewrite scan_lines_ok by now apply valid_range_indices.
  rewrite map_line_at_range by exact H. now rewrite scan_line_text.
Qed.

Lemma count_pair_valid (start end_ : Z) :
  valid_range lines start end_ ->
  count_pair lines start end_ o c
  = Ok (result_of (fold_left (step o c) (range_chars lines start end_)
                             (Counters 0 0))).
Proof.
  intros H. unfold count_pair. now rewrite scan_valid.
Qed.

Lemma count_pair_net (start end_ : Z) :
  valid_range lines start end_ ->
  exists r, count_pair lines start end_ o c = Ok r /\
            net r = balance o c (range_chars lines start end_).
Proof.
  intros H. eexists. split; [now apply count_pair_valid|].
  cbn [result_of net]. rewrite fold_step_count. cbn [count]. lia.
Qed.

Lemma net_pass_valid (start end_ : Z) :
  valid_range lines start end_ ->
  net_pass o c lines start end_ = Ok (balance o c (range_chars lines start end_)).
Proof.
  intros H. unfold net_pass, range_chars.
  rewrite net_lines_ok by now apply valid_range_indices.
  rewrite map_line_at_range by exact H. now rewrite net_line_text.
Qed.

Lemma range_chars_split (start mid end_ : Z) :
  0 <= start <= mid -> mid <= end_ <= Z.of_nat (List.length lines) ->
  range_chars lines start end_
  = range_chars lines start mid ++ range_chars lines mid end_.
Proof.
  intros H0 H1. unfold range_chars, text.
  rewrite (slice_split lines start mid end_) by assumption.
  now rewrite map_app, concat_app.
Qed.

(** The forward loops have no early exit: one bad index anywhere in the
    range makes them raise. *)
Lemma scan_lines_raises (idxs : list Z) (st : counters) (bad : Z) :
  In bad idxs -> getitem lines bad = IndexError ->
  scan_lines o c lines idxs st = IndexError.
Proof.
  intros Hin Hbad. revert st.
  induction idxs as [|idx idxs IH]; intros st; [contradiction|].
  cbn [scan_lines]. destruct (getitem lines idx) as [line|] eqn:E; [|reflexivity].
  cbn [bind]. destruct Hin as [->|Hin]; [congruence|]. now apply IH.
Qed.

Lemma scan_lines_in_bounds (idxs : list Z) (st : counters) :
  Forall (fun idx => - Z.of_nat (List.length lines) <= idx
                     < Z.of_nat (List.length lines)) idxs ->
  exists st', scan_lines o c lines idxs st = Ok st'.
Proof.
  intros H. revert st. induction H as [|idx idxs Hidx _ IH]; intros st.
  - now exists st.
  - cbn [scan_lines]. destruct (getitem_in_bounds lines idx Hidx) as [line ->].
    cbn [bind]. apply IH.
Qed.

End Forward.

(** ** The reverse scan *)

Section Reverse.

Variables o c : ascii.

(** While the inner loop keeps going the counter stays positive, and it
    moves opposite to the forward balance of the characters visited. *)
Lemma rev_chars_continue (chs : list ascii) (cnt cnt' : Z) :
  1 <= cnt -> rev_chars o c chs cnt = Continue cnt' ->
  1 <= cnt' /\ cnt' = cnt - balance o c chs.
Proof.
  revert cnt. induction chs as [|ch chs IH]; intros cnt Hpos H.
  - cbn in H. injection H as <-. cbn. lia.
  - cbn [rev_chars] in H. cbn [balance]. unfold tally.
    destruct (ch =? o)%char.
    + destruct (Z.eqb_spec (cnt - 1) 0) as [|Hne]; [discriminate|].
      apply IH in H; lia.
    + destruct (ch =? c)%char; apply IH in H; lia.
Qed.

(** Testing the counter after every character, as the specification does,
    or only after an opening delimiter, as the script does, is the same
    thing, because the counter is positive before every character. *)
Lemma first_zero_line (idx : Z) (chs : list ascii) (cnt : Z)
      (tr : list (Z * ascii)) :
  1 <= cnt ->
  first_zero o c cnt (map (pair idx) chs ++ tr)
  = match rev_chars o c chs cnt with
    | Exited => Some idx
    | Continue cnt' => first_zero o c cnt' tr
    end.
Proof.
  revert cnt. induction chs as [|ch chs IH]; intros cnt Hpos; [reflexivity|].
  cbn [map app first_zero rev_chars]. unfold counter_update.
  destruct (ch =? o)%char.
  - destruct (Z.eqb_spec (cnt - 1) 0) as [|Hne]; [reflexivity|].
    apply IH. lia.
  - destruct (ch =? c)%char.
    + destruct (Z.eqb_spec (cnt + 1) 0) as [|_]; [lia|]. apply IH. lia.
    + destruct (Z.eqb_spec cnt 0) as [|_]; [lia|]. now apply IH.
Qed.

Variable lines : list string.

Lemma rev_lines_first_zero (idxs : list Z) (cnt : Z) :
  Forall (fun idx => 0 <= idx < Z.of_nat (List.length lines)) idxs ->
  1 <= cnt ->
  rev_lines o c lines idxs cnt
  = Ok (first_zero o c cnt
          (flat_map (fun il => map (pair (fst il)) (rev (chars (snd il))))
                    (map (fun idx => (idx, line_at lines idx)) idxs))).
Proof.
  intros H. revert cnt. induction H as [|idx idxs Hidx _ IH]; intros cnt Hpos.
  - reflexivity.
  - cbn [rev_lines map flat_map fst snd].
    rewrite getitem_nonneg by exact Hidx. cbn [bind].
    rewrite first_zero_line by exact Hpos. unfold reversed.
    destruct (rev_chars o c (rev (chars (line_at lines idx))) cnt)
      as [cnt'|] eqn:E; [|reflexivity].
    apply IH. now apply (rev_chars_continue _ _ _ Hpos E).
Qed.

Lemma slice_single (idx : Z) :
  0 <= idx < Z.of_nat (List.length lines) ->
  slice lines idx (idx + 1) = [line_at lines idx].
Proof.
  intros H. rewrite <- map_line_at_range by (unfold valid_range; lia).
  rewrite range_cons by lia. now rewrite range_empty by lia.
Qed.

Lemma range_chars_empty (idx : Z) : range_chars lines idx idx = [].
Proof.
  unfold range_chars, slice. now rewrite Z.sub_diag.
Qed.

(** When the script exits at line [L], the lines after [L] up to the point
    where the walk began have not brought the counter below its start. *)
Lemma rev_lines_found (n : nat) (e cnt L : Z) :
  1 <= cnt -> 0 <= e - Z.of_nat n -> e <= Z.of_nat (List.length lines) ->
  rev_lines o c lines (iota_down (e - 1) n) cnt = Ok (Some L) ->
  e - Z.of_nat n <= L < e /\
  balance o c (range_chars lines (L + 1) e) <= cnt - 1.
Proof.
  revert e cnt. induction n as [|n IH]; intros e cnt Hpos Hlo Hhi H.
  - discriminate.
  - cbn [iota_down rev_lines] in H.
    rewrite getitem_nonneg in H by lia. cbn [bind] in H.
    destruct (rev_chars o c (reversed (line_at lines (e - 1))) cnt)
      as [cnt'|] eqn:E.
    + destruct (rev_chars_continue _ _ _ Hpos E) as [Hpos' Hcnt'].
      unfold reversed in Hcnt'. rewrite balance_rev in Hcnt'.
      apply IH in H; [|lia..]. destruct H as [HL Hbal].
      split; [lia|].
      rewrite (range_chars_split lines (L + 1) (e - 1) e) by lia.
      rewrite balance_app.
      assert (Hlast : range_chars lines (e - 1) e = chars (line_at lines (e - 1))).
      { unfold range_chars. replace e with (e - 1 + 1) at 2 by lia.
        rewrite slice_single by lia.
        unfold text. cbn [map List.concat]. apply app_nil_r. }
      rewrite Hlast. lia.
    + injection H as <-. split; [lia|].
      replace (e - 1 + 1) with e by lia.
      rewrite range_chars_empty. cbn. lia.
Qed.

End Reverse.

Lemma combine_map_self {A B : Type} (f : A -> B) (l : list A) :
  combine l (map f l) = map (fun x => (x, f x)) l.
Proof.
  induction l as [|x l IH]; [reflexivity|]. cbn. now rewrite IH.
Qed.

(** ** Net value over the whole document *)

Lemma balance_occurrences (o c : ascii) (chs : list ascii) :
  o <> c ->
  balance o c chs
  = Z.of_nat (count_occ ascii_dec chs o) - Z.of_nat (count_occ ascii_dec chs c).
Proof.
  intros Hoc. induction chs as [|ch chs IH]; [reflexivity|].
  cbn [balance count_occ]. unfold tally.
  destruct (Ascii.eqb_spec ch o) as [->|Ho].
  - destruct (ascii_dec o o) as [_|]; [|congruence].
    destruct (ascii_dec o c) as [|_]; [congruence|]. lia.
  - destruct (ascii_dec ch o) as [|_]; [congruence|].
    destruct (Ascii.eqb_spec ch c) as [->|Hc].
    + destruct (ascii_dec c c) as [_|]; [|congruence]. lia.
    + destruct (ascii_dec ch c) as [|_]; [congruence|]. lia.
Qed.

Lemma valid_range_full (lines : list string) :
  valid_range lines 0 (Z.of_nat (List.length lines)).
Proof. unfold valid_range. lia. Qed.

(** C1: for every document D and every delimiter pair (o, c), an opening
    and a closing character that differ as the two literals of the if / elif
    do, count_pair over the full range (0, len(D)) returns a result whose
    net is the number of occurrences of o in D minus the number of
    occurrences of c in D. *)
Theorem count_pair_full_range_net (lines : list string) (o c : ascii) :
  o <> c ->
  exists r,
    count_pair lines 0 (Z.of_nat (List.length lines)) o c = Ok r /\
    net r = occurrences o lines - occurrences c lines.
Proof.
  intros Hoc.
  destruct (count_pair_net o c lines _ _ (valid_range_full lines)) as [r [Hr Hnet]].
  exists r. split; [exact Hr|].
  rewrite Hnet. unfold range_chars. rewrite slice_full.
  unfold occurrences. now apply balance_occurrences.
Qed.

Lemma count_pair_full_range_net_witness :
  "("%char <> ")"%char /\
  exists r,
    count_pair doc_example 0 (Z.of_nat (List.length doc_example)) "(" ")" = Ok r /\
    net r = occurrences "(" doc_example - occurrences ")" doc_example.
Proof.
  assert (H : "("%char <> ")"%char) by (intros H; discriminate H).
  split; [exact H|]. exact (count_pair_full_range_net doc_example "(" ")" H).
Defined.

(** ** The reverse scan against its description *)

(** C2: on a valid range find_unmatched_open walks the lines from end-1 down
    to start and the characters of each line from last to first, with a
    counter that starts at 1, goes down on the opening delimiter and up on
    the closing one; it returns the index of the line at which the counter
    first is 0, and None when the walk ends without that. *)
Theorem find_unmatched_open_reverse_walk (lines : list string) (start end_ : Z)
    (o c : ascii) :
  valid_range lines start end_ ->
  find_unmatched_open lines start end_ o c
  = Ok (find_unmatched_open_spec lines start end_ o c).
Proof.
  intros H. unfold find_unmatched_open, find_unmatched, find_unmatched_open_spec.
  rewrite range_down_rev.
  rewrite rev_lines_first_zero; [|apply Forall_rev; now apply valid_range_indices|lia].
  unfold reverse_trace, numbered.
  rewrite <- map_line_at_range by exact H.
  now rewrite combine_map_self, map_rev.
Qed.

Lemma find_unmatched_open_reverse_walk_witness :
  valid_range doc_example 0 3 /\
  find_unmatched_open doc_example 0 3 "(" ")"
  = Ok (find_unmatched_open_spec doc_example 0 3 "(" ")").
Proof.
  assert (H : valid_range doc_example 0 3) by (unfold valid_range; cbn; lia).
  split; [exact H|]. exact (find_unmatched_open_reverse_walk doc_example 0 3 "(" ")" H).
Defined.

(** ** The line found by the reverse scan and the forward counts *)

(** C3, as stated, fails: in the document ["((", ")"] the net over (0, 2) is 1
    and the reverse scan stops at the first character of line 0, yet the
    forward count over (0, 1) takes in the whole of line 0 and gives 2. *)
Lemma find_unmatched_prefix_net_counterexample :
  (exists r, count_pair doc_two_opens 0 2 "(" ")" = Ok r /\ net r = 1) /\
  find_unmatched_open doc_two_opens 0 2 "(" ")" = Ok (Some 0) /\
  ~ (exists r, count_pair doc_two_opens 0 (0 + 1) "(" ")" = Ok r /\ net r = 1).
Proof.
  split; [|split].
  - eexists. split; reflexivity.
  - reflexivity.
  - intros [r [Hr Hnet]]. vm_compute in Hr. injection Hr as <-.
    cbn in Hnet. discriminate.
Qed.

(** C3 (amended): for every document, valid range (start, end) and delimiter
    pair whose net over the range is exactly 1, if find_unmatched_open returns
    line index L, then start <= L < end, the net of count_pair over the lines
    after L, that is over (L+1, end), is at most 0, and the net of count_pair
    over (start, L+1) is 1 minus that net, hence at least 1. *)
Theorem find_unmatched_open_prefix_net (lines : list string) (start end_ : Z)
    (o c : ascii) (r : ScanResult) (L : Z) :
  valid_range lines start end_ ->
  count_pair lines start end_ o c = Ok r -> net r = 1 ->
  find_unmatched_open lines start end_ o c = Ok (Some L) ->
  start <= L < end_ /\
  exists r1 r2,
    count_pair lines start (L + 1) o c = Ok r1 /\
    count_pair lines (L + 1) end_ o c = Ok r2 /\
    net r2 <= 0 /\ net r1 = 1 - net r2 /\ 1 <= net r1.
Proof.
  intros Hv Hr Hnet Hfind.
  pose proof Hv as [Hs He].
  unfold find_unmatched_open, find_unmatched, range_down in Hfind.
  replace (end_ - 1 - (start - 1)) with (end_ - start) in Hfind by lia.
  apply rev_lines_found in Hfind; [|lia..].
  destruct Hfind as [HL Hbal].
  rewrite Z2Nat.id in HL by lia.
  split; [lia|].
  destruct (count_pair_net o c lines start (L + 1)) as [r1 [Hr1 Hn1]];
    [unfold valid_range; lia|].
  destruct (count_pair_net o c lines (L + 1) end_) as [r2 [Hr2 Hn2]];
    [unfold valid_range; lia|].
  destruct (count_pair_net o c lines start end_ Hv) as [r' [Hr' Hn']].
  assert (r' = r) by congruence. subst r'.
  rewrite (range_chars_split lines start (L + 1) end_), balance_app in Hn' by lia.
  exists r1, r2. repeat split; try assumption; lia.
Qed.

Lemma find_unmatched_open_prefix_net_witness :
  0 <= 0 < 2 /\
  exists r1 r2,
    count_pair doc_two_opens 0 (0 + 1) "(" ")" = Ok r1 /\
    count_pair doc_two_opens (0 + 1) 2 "(" ")" = Ok r2 /\
    net r2 <= 0 /\ net r1 = 1 - net r2 /\ 1 <= net r1.
Proof.
  apply (find_unmatched_open_prefix_net doc_two_opens 0 2 "(" ")"
           {| net := 1; minimum := 0 |} 0).
  - unfold valid_range. cbn. lia.
  - reflexivity.
  - reflexivity.
  - reflexivity.
Defined.

(** ** Ranges that leave the document *)

Lemma fmap_raises {A B : Type} (f : A -> B) (m : outcome A) :
  fmap f m = IndexError <-> m = IndexError.
Proof. destruct m; cbn; split; congruence. Qed.

(** C4, as stated, fails: the scripts never compare the range with the
    document.  An inverted range (start > end) and an empty range beyond the
    last line make [range] empty, so nothing is indexed and the scans return
    their initial values; a negative start inside [-len, 0) is a legal Python
    index and reads from the end of the document. *)
Lemma malformed_range_counterexample :
  count_pair doc_one_line 1 0 "(" ")" = Ok {| net := 0; minimum := 0 |} /\
  find_unmatched_open doc_one_line 1 0 "(" ")" = Ok None /\
  count_pair doc_one_line 5 5 "(" ")" = Ok {| net := 0; minimum := 0 |} /\
  find_unmatched_open doc_one_line 5 5 "(" ")" = Ok None /\
  count_pair doc_one_line (-1) 0 "(" ")" = Ok {| net := 1; minimum := 0 |} /\
  find_unmatched_open doc_one_line (-1) 0 "(" ")" = Ok (Some (-1)).
Proof. repeat split; reflexivity. Qed.

(** C4 (amended): count_pair fails, with the IndexError of [lines[idx]],
    exactly when the range is not empty (start < end) and reaches outside the
    document (end > len(D) or start < -len(D)); find_unmatched_open fails
    whenever start < end and end > len(D); and on an empty or inverted range
    (start >= end), wherever it lies, neither fails: count_pair returns
    net = 0 and minimum = 0 and find_unmatched_open returns None. *)
Theorem scan_failure_conditions (lines : list string) (start end_ : Z)
    (o c : ascii) :
  (count_pair lines start end_ o c = IndexError <->
   start < end_ /\
   (start < - Z.of_nat (List.length lines) \/ Z.of_nat (List.length lines) < end_))
  /\
  (start < end_ -> Z.of_nat (List.length lines) < end_ ->
   find_unmatched_open lines start end_ o c = IndexError)
  /\
  (end_ <= start ->
   count_pair lines start end_ o c = Ok {| net := 0; minimum := 0 |} /\
   find_unmatched_open lines start end_ o c = Ok None).
Proof.
  set (len := Z.of_nat (List.length lines)).
  split; [|split].
  - unfold count_pair. rewrite fmap_raises. unfold scan. split.
    + intros Hraise.
      destruct (Z.le_gt_cases end_ start) as [Hempty|Hlt].
      { rewrite range_empty in Hraise by exact Hempty. discriminate. }
      split; [exact Hlt|].
      destruct (Z.lt_ge_cases start (- len)) as [|Hlo]; [now left|].
      destruct (Z.lt_ge_cases len end_) as [|Hhi]; [now right|].
      exfalso.
      destruct (scan_lines_in_bounds o c lines (range start end_) (Counters 0 0))
        as [st Hst]; [|congruence].
      apply Forall_forall. intros x Hx. apply In_range in Hx. fold len. lia.
    + intros [Hlt [Hlo|Hhi]].
      * apply (scan_lines_raises o c lines _ _ start).
        -- apply In_range. lia.
        -- apply getitem_out_of_bounds. now left.
      * apply (scan_lines_raises o c lines _ _ (Z.max start len)).
        -- apply In_range. lia.
        -- apply getitem_out_of_bounds. right. fold len. lia.
  - intros Hlt Hhi. unfold find_unmatched_open, find_unmatched, range_down.
    replace (Z.to_nat (end_ - 1 - (start - 1)))
      with (S (Z.to_nat (end_ - 1 - start))) by lia.
    cbn [iota_down rev_lines].
    rewrite getitem_out_of_bounds by (right; lia). reflexivity.
  - intros Hempty. split.
    + unfold count_pair, scan. now rewrite range_empty by exact Hempty.
    + unfold find_unmatched_open, find_unmatched, range_down.
      now replace (Z.to_nat (end_ - 1 - (start - 1))) with 0%nat by lia.
Qed.

(** ** Empty ranges *)

(** C5: on an empty range (start = end), wherever it lies, count_pair returns
    net = 0 and minimum = 0 and find_unmatched_open returns None. *)
Theorem empty_range_results (lines : list string) (start : Z) (o c : ascii) :
  count_pair lines start start o c = Ok {| net := 0; minimum := 0 |} /\
  find_unmatched_open lines start start o c = Ok None.
Proof.
  split.
  - unfold count_pair, scan. now rewrite range_empty by lia.
  - unfold find_unmatched_open, find_unmatched, range_down.
    now replace (Z.to_nat (start - 1 - (start - 1))) with 0%nat by lia.
Qed.

(** ** The minimum *)

Lemma count_pair_minimum_bounds (lines : list string) (start end_ : Z)
    (o c : ascii) :
  valid_range lines start end_ ->
  exists r, count_pair lines start end_ o c = Ok r /\
            minimum r <= net r /\ minimum r <= 0.
Proof.
  intros H. eexists. split; [now apply count_pair_valid|].
  cbn [result_of net minimum]. split.
  - apply fold_step_min_le_count. cbn. lia.
  - etransitivity; [apply fold_step_min_le_start|]. cbn. lia.
Qed.

(** C6: on a valid range the result of count_pair has minimum <= net, and
    minimum <= 0 whenever the first character of the range that is one of the
    two delimiters is the closing one. *)
Theorem count_pair_minimum_le_net (lines : list string) (start end_ : Z)
    (o c : ascii) :
  valid_range lines start end_ ->
  exists r,
    count_pair lines start end_ o c = Ok r /\
    minimum r <= net r /\
    (first_tracked o c (range_chars lines start end_) = Some c -> minimum r <= 0).
Proof.
  intros H.
  destruct (count_pair_minimum_bounds lines start end_ o c H) as [r [Hr [Hnet Hzero]]].
  exists r. repeat split; [exact Hr|exact Hnet|]. intros _. exact Hzero.
Qed.

Lemma count_pair_minimum_le_net_witness :
  valid_range doc_close_first 0 2 /\
  exists r,
    count_pair doc_close_first 0 2 "(" ")" = Ok r /\
    minimum r <= net r /\
    (first_tracked "(" ")" (range_chars doc_close_first 0 2) = Some ")"%char ->
     minimum r <= 0).
Proof.
  assert (H : valid_range doc_close_first 0 2) by (unfold valid_range; cbn; lia).
  split; [exact H|]. exact (count_pair_minimum_le_net doc_close_first 0 2 "(" ")" H).
Defined.

(** With two different delimiters the dip is strict: a closing delimiter met
    before any opening one takes the counter, and so the minimum, below 0. *)
Lemma balance_until_close (o c : ascii) (chs : list ascii) :
  o <> c -> first_tracked o c chs = Some c ->
  exists pre post, chs = pre ++ c :: post /\ balance o c (pre ++ [c]) = -1.
Proof.
  intros Hoc. induction chs as [|ch chs IH]; intros H; [discriminate|].
  unfold first_tracked in H. cbn [find] in H.
  destruct (Ascii.eqb_spec ch o) as [->|Ho].
  - cbn [orb] in H. congruence.
  - destruct (Ascii.eqb_spec ch c) as [->|Hc].
    + exists [], chs. split; [reflexivity|].
      cbn [app balance]. unfold tally.
      destruct (Ascii.eqb_spec c o) as [|_]; [congruence|].
      now rewrite Ascii.eqb_refl.
    + cbn [orb] in H. destruct (IH H) as [pre [post [-> Hbal]]].
      exists (ch :: pre), post. split; [reflexivity|].
      cbn [app balance]. rewrite Hbal. unfold tally.
      destruct (Ascii.eqb_spec ch o) as [|_]; [congruence|].
      destruct (Ascii.eqb_spec ch c) as [|_]; [congruence|]. reflexivity.
Qed.

Lemma count_pair_minimum_negative (lines : list string) (start end_ : Z)
    (o c : ascii) :
  valid_range lines start end_ -> o <> c ->
  first_tracked o c (range_chars lines start end_) = Some c ->
  exists r, count_pair lines start end_ o c = Ok r /\ minimum r <= -1.
Proof.
  intros H Hoc Hfirst. eexists. split; [now apply count_pair_valid|].
  destruct (balance_until_close o c _ Hoc Hfirst) as [pre [post [Heq Hbal]]].
  cbn [result_of minimum]. rewrite Heq.
  change (pre ++ c :: post) with (pre ++ [c] ++ post). rewrite app_assoc.
  destruct (fold_step_min_le_prefix o c (pre ++ [c]) post (Counters 0 0))
    as [Hle|Hnil].
  - rewrite Hbal in Hle. exact Hle.
  - now destruct pre.
Qed.

(** C9: on a valid range the minimum returned by count_pair is at most 0,
    whatever the characters of the range are (also when every delimiter in it
    is an opening one), since min_count starts at 0 and only goes down. *)
Theorem count_pair_minimum_nonpositive (lines : list string) (start end_ : Z)
    (o c : ascii) :
  valid_range lines start end_ ->
  exists r, count_pair lines start end_ o c = Ok r /\ minimum r <= 0.
Proof.
  intros H.
  destruct (count_pair_minimum_bounds lines start end_ o c H) as [r [Hr [_ Hzero]]].
  now exists r.
Qed.

Lemma count_pair_minimum_nonpositive_witness :
  valid_range doc_two_opens 0 1 /\
  exists r, count_pair doc_two_opens 0 1 "(" ")" = Ok r /\ minimum r <= 0.
Proof.
  assert (H : valid_range doc_two_opens 0 1) by (unfold valid_range; cbn; lia).
  split; [exact H|]. exact (count_pair_minimum_nonpositive doc_two_opens 0 1 "(" ")" H).
Defined.

(** ** Several pairs *)

Lemma count_multiple_pairs_valid (lines : list string) (start end_ : Z)
    (pairs : list (ascii * ascii)) :
  valid_range lines start end_ ->
  count_multiple_pairs lines start end_ pairs
  = Ok (map (fun p => balance (fst p) (snd p) (range_chars lines start end_)) pairs).
Proof.
  intros H. induction pairs as [|[o c] pairs IH]; [reflexivity|].
  cbn [count_multiple_pairs map fst snd].
  rewrite net_pass_valid by exact H. cbn [bind]. now rewrite IH.
Qed.

(** count_balance.py is [count_multiple_pairs] at its two pairs. *)
Lemma count_balance_two_pairs (lines : list string) (start end_ : Z) :
  count_balance lines start end_
  = ns <- count_multiple_pairs lines start end_ [("(", ")"); ("{", "}")]%char ;;
    match ns with
    | [parens; curlies] => Ok (parens, curlies)
    | _ => IndexError
    end.
Proof.
  unfold count_balance. cbn [count_multiple_pairs].
  destruct (net_pass "(" ")" lines start end_) as [parens|]; [|reflexivity].
  cbn [bind].
  destruct (net_pass "{" "}" lines start end_) as [curlies|]; reflexivity.
Qed.

(** C7, as stated, fails: count_balance.py keeps one counter per pair and no
    minimum, so what it returns is not the whole result of count_pair.  On
    the one-line documents ")(" and "()" it returns the same pair of nets
    (and prints the same lines), while count_pair for parentheses gives
    minimum -1 on the first and 0 on the second. *)
Lemma count_balance_no_minimum_counterexample :
  count_balance doc_close_open 0 1 = count_balance doc_open_close 0 1 /\
  count_balance_py doc_close_open 0 1 = count_balance_py doc_open_close 0 1 /\
  count_pair doc_close_open 0 1 "(" ")" = Ok {| net := 0; minimum := -1 |} /\
  count_pair doc_open_close 0 1 "(" ")" = Ok {| net := 0; minimum := 0 |} /\
  count_pair doc_close_open 0 1 "(" ")" <> count_pair doc_open_close 0 1 "(" ")".
Proof.
  repeat split; try reflexivity. intros H. vm_compute in H. discriminate H.
Qed.

(** C7 (amended): on a valid range the passes of count_balance.py, for any
    list of delimiter pairs, return for each pair exactly the net of the
    result that count_pair returns when run for that pair alone on the same
    document and range (the counters of distinct pairs are independent); in
    particular count_balance.py reports the nets of count_pair for
    parentheses and for curly braces.  No minimum is computed. *)
Theorem count_multiple_pairs_independent (lines : list string) (start end_ : Z)
    (pairs : list (ascii * ascii)) :
  valid_range lines start end_ ->
  (exists rs,
      map (fun p => count_pair lines start end_ (fst p) (snd p)) pairs = map Ok rs /\
      count_multiple_pairs lines start end_ pairs = Ok (map net rs)) /\
  (exists rp rc,
      count_pair lines start end_ "(" ")" = Ok rp /\
      count_pair lines start end_ "{" "}" = Ok rc /\
      count_balance lines start end_ = Ok (net rp, net rc)).
Proof.
  intros H. split.
  - exists (map (fun p => result_of
                   (fold_left (step (fst p) (snd p))
                              (range_chars lines start end_) (Counters 0 0)))
                pairs).
    split.
    + rewrite map_map. apply map_ext. intros [o c]. now apply count_pair_valid.
    + rewrite count_multiple_pairs_valid by exact H. f_equal.
      rewrite map_map. apply map_ext. intros [o c].
      cbn [result_of net fst snd]. rewrite fold_step_count. cbn [count]. lia.
  - destruct (count_pair_net "(" ")" lines start end_ H) as [rp [Hrp Hnp]].
    destruct (count_pair_net "{" "}" lines start end_ H) as [rc [Hrc Hnc]].
    exists rp, rc. repeat split; [exact Hrp|exact Hrc|].
    unfold count_balance. rewrite !net_pass_valid by exact H.
    cbn [bind]. now rewrite Hnp, Hnc.
Qed.

Lemma count_multiple_pairs_independent_witness :
  valid_range doc_example 0 3 /\
  (exists rs,
      map (fun p => count_pair doc_example 0 3 (fst p) (snd p))
          [("(", ")"); ("{", "}")]%char = map Ok rs /\
      count_multiple_pairs doc_example 0 3 [("(", ")"); ("{", "}")]%char
      = Ok (map net rs)) /\
  (exists rp rc,
      count_pair doc_example 0 3 "(" ")" = Ok rp /\
      count_pair doc_example 0 3 "{" "}" = Ok rc /\
      count_balance doc_example 0 3 = Ok (net rp, net rc)).
Proof.
  assert (H : valid_range doc_example 0 3) by (unfold valid_range; cbn; lia).
  split; [exact H|].
  exact (count_multiple_pairs_independent doc_example 0 3 _ H).
Defined.

(** ** The worked example *)

(** C8: for the document ["a(", "b)", "c("], the pair ('(', ')') and the range
    (0, 3), count_pair returns net = 1 and minimum = 0, and
    find_unmatched_open stops at index 2, which is line 3 for the user. *)
Theorem example_three_lines :
  count_pair doc_example 0 3 "(" ")" = Ok {| net := 1; minimum := 0 |} /\
  find_unmatched_open doc_example 0 3 "(" ")" = Ok (Some 2) /\
  fmap (option_map line_number) (find_unmatched_open doc_example 0 3 "(" ")")
  = Ok (Some 3).
Proof. repeat split; reflexivity. Qed.

(** The curly-brace scenario of the specification, through the scripts
    themselves. *)
Example curlies_scripts :
  count_curlies_py doc_curlies 0 3
  = Transcript [[Str "curlies net"; Int 1; Str "min"; Int 0]] Finished /\
  find_unmatched_py doc_curlies 0 3
  = Transcript [[Str "Unmatched { likely opened at line"; Int 3]] SystemExit /\
  find_unmatched_py doc_curlies 1 1
  = Transcript [[Str "No unmatched { found"]] Finished /\
  count_balance_py doc_curlies 0 3
  = Transcript [[Str "paren net"; Int 0]; [Str "curlies net"; Int 1]] Finished /\
  count_parens_py doc_curlies 0 4 = Transcript [] Traceback.
Proof. repeat split; reflexivity. Qed.

(** ** Additivity of the net *)

(** C10: for line indices 0 <= start <= mid <= end <= len(document) the three
    counts succeed and the net over (start, end) is the net over (start, mid)
    plus the net over (mid, end). *)
Theorem count_pair_net_additive (lines : list string) (start mid end_ : Z)
    (o c : ascii) :
  0 <= start <= mid -> mid <= end_ <= Z.of_nat (List.length lines) ->
  exists r r1 r2,
    count_pair lines start end_ o c = Ok r /\
    count_pair lines start mid o c = Ok r1 /\
    count_pair lines mid end_ o c = Ok r2 /\
    net r = net r1 + net r2.
Proof.
  intros H0 H1.
  destruct (count_pair_net o c lines start end_) as [r [Hr Hn]];
    [unfold valid_range; lia|].
  destruct (count_pair_net o c lines start mid) as [r1 [Hr1 Hn1]];
    [unfold valid_range; lia|].
  destruct (count_pair_net o c lines mid end_) as [r2 [Hr2 Hn2]];
    [unfold valid_range; lia|].
  exists r, r1, r2. repeat split; try assumption.
  rewrite Hn, Hn1, Hn2.
  rewrite (range_chars_split lines start mid end_) by assumption.
  apply balance_app.
Qed.

Lemma count_pair_net_additive_witness :
  exists r r1 r2,
    count_pair doc_example 0 3 "(" ")" = Ok r /\
    count_pair doc_example 0 1 "(" ")" = Ok r1 /\
    count_pair doc_example 1 3 "(" ")" = Ok r2 /\
    net r = net r1 + net r2.
Proof.
  apply (count_pair_net_additive doc_example 0 1 3 "(" ")"); cbn; lia.
Defined.

(** * Further properties of the scripts *)

(** ** The counting loops against each other *)

Lemma net_lines_scan_lines (o c : ascii) (lines : list string) (idxs : list Z)
    (st : counters) :
  net_lines o c lines idxs (count st) = fmap count (scan_lines o c lines idxs st).
Proof.
  revert st. induction idxs as [|idx idxs IH]; intros st; [reflexivity|].
  cbn [net_lines scan_lines].
  destruct (getitem lines idx) as [line|]; [|reflexivity]. cbn [bind].
  rewrite <- IH. f_equal.
  unfold net_line, scan_line. rewrite fold_tally, fold_step_count. reflexivity.
Qed.

Lemma net_pass_scan (o c : ascii) (lines : list string) (start end_ : Z) :
  net_pass o c lines start end_ = fmap count (scan o c lines start end_).
Proof.
  unfold net_pass, scan.
  exact (net_lines_scan_lines o c lines (range start end_) (Counters 0 0)).
Qed.

(** X1: for every document and every range, valid or not, a pass of
    count_balance.py returns the net of the result of count_pair for the same
    delimiters, and fails exactly when count_pair fails. *)
Theorem net_pass_is_count_pair_net (o c : ascii) (lines : list string)
    (start end_ : Z) :
  net_pass o c lines start end_ = fmap net (count_pair lines start end_ o c).
Proof.
  rewrite net_pass_scan. unfold count_pair.
  now destruct (scan o c lines start end_).
Qed.

(** Whether the forward loop fails depends on the range and the number of
    lines only. *)
Lemma scan_raises_iff (o c : ascii) (lines : list string) (start end_ : Z) :
  scan o c lines start end_ = IndexError <->
  start < end_ /\
  (start < - Z.of_nat (List.length lines) \/ Z.of_nat (List.length lines) < end_).
Proof.
  set (len := Z.of_nat (List.length lines)). unfold scan. split.
  - intros Hraise.
    destruct (Z.le_gt_cases end_ start) as [Hempty|Hlt].
    { rewrite range_empty in Hraise by exact Hempty. discriminate. }
    split; [exact Hlt|].
    destruct (Z.lt_ge_cases start (- len)) as [|Hlo]; [now left|].
    destruct (Z.lt_ge_cases len end_) as [|Hhi]; [now right|].
    exfalso.
    destruct (scan_lines_in_bounds o c lines (range start end_) (Counters 0 0))
      as [st Hst]; [|congruence].
    apply Forall_forall. intros x Hx. apply In_range in Hx. fold len. lia.
  - intros [Hlt [Hlo|Hhi]].
    + apply (scan_lines_raises o c lines _ _ start).
      * apply In_range. lia.
      * apply getitem_out_of_bounds. now left.
    + apply (scan_lines_raises o c lines _ _ (Z.max start len)).
      * apply In_range. lia.
      * apply getitem_out_of_bounds. right. fold len. lia.
Qed.

Lemma scan_raises_any_delimiters (o c o' c' : ascii) (lines : list string)
    (start end_ : Z) :
  scan o c lines start end_ = IndexError ->
  scan o' c' lines start end_ = IndexError.
Proof.
  intros H. apply scan_raises_iff. now apply (scan_raises_iff o c).
Qed.

(** X2: for every document and range, count_balance.py either prints the two
    nets that count_parens.py and count_curlies.py end with and finishes, or
    prints nothing and dies of the IndexError; it never prints the paren line
    and then fails in the curly-brace pass. *)
Theorem count_balance_py_outputs (lines : list string) (start end_ : Z) :
  count_balance_py lines start end_
  = match scan "(" ")" lines start end_, scan "{" "}" lines start end_ with
    | Ok p, Ok q =>
        Transcript [[Str "paren net"; Int (count p)];
                    [Str "curlies net"; Int (count q)]] Finished
    | _, _ => Transcript [] Traceback
    end.
Proof.
  unfold count_balance_py. rewrite !net_pass_scan.
  destruct (scan "(" ")" lines start end_) as [p|] eqn:Ep;
    destruct (scan "{" "}" lines start end_) as [q|] eqn:Eq; cbn; try reflexivity.
  apply (scan_raises_any_delimiters _ _ "(" ")") in Eq. congruence.
Qed.

(** ** What the minimum is *)

Lemma fold_step_min_attained (o c : ascii) (chs : list ascii) :
  exists pre post,
    chs = pre ++ post /\
    min_count (fold_left (step o c) chs (Counters 0 0)) = balance o c pre.
Proof.
  induction chs as [|ch chs IH] using rev_ind.
  - exists [], []. split; reflexivity.
  - rewrite fold_left_app. cbn [fold_left step min_count].
    destruct IH as [pre [post [Heq Hmin]]].
    rewrite fold_step_count. cbn [count].
    rewrite (tally_shift o c (0 + balance o c chs)).
    destruct (Z.le_gt_cases
                (min_count (fold_left (step o c) chs (Counters 0 0)))
                (0 + balance o c chs + tally o c 0 ch)) as [Hle|Hgt].
    + exists pre, (post ++ [ch]). split.
      * rewrite Heq. now rewrite app_assoc.
      * rewrite Z.min_l by exact Hle. exact Hmin.
    + exists (chs ++ [ch]), []. split.
      * now rewrite app_nil_r.
      * rewrite Z.min_r by lia. rewrite balance_app. cbn [balance]. lia.
Qed.

(** X3: on a valid range the minimum that count_pair returns is the lowest
    value of the counter over all the prefixes of the text of the range, the
    empty prefix included: it is below the counter after every prefix and
    equal to the counter after one of them. *)
Theorem count_pair_minimum_is_lowest_prefix (lines : list string)
    (start end_ : Z) (o c : ascii) :
  valid_range lines start end_ ->
  exists r,
    count_pair lines start end_ o c = Ok r /\
    (forall pre post,
        range_chars lines start end_ = pre ++ post ->
        minimum r <= balance o c pre) /\
    (exists pre post,
        range_chars lines start end_ = pre ++ post /\
        minimum r = balance o c pre).
Proof.
  intros H. eexists. split; [now apply count_pair_valid|].
  cbn [result_of minimum]. split.
  - intros pre post Heq. rewrite Heq.
    destruct (fold_step_min_le_prefix o c pre post (Counters 0 0)) as [Hle|Hnil].
    + exact Hle.
    + subst pre. cbn [app balance].
      etransitivity; [apply fold_step_min_le_start|]. cbn. lia.
  - apply fold_step_min_attained.
Qed.

Lemma count_pair_minimum_is_lowest_prefix_witness :
  valid_range doc_close_first 0 2 /\
  exists r,
    count_pair doc_close_first 0 2 "(" ")" = Ok r /\
    (forall pre post,
        range_chars doc_close_first 0 2 = pre ++ post ->
        minimum r <= balance "(" ")" pre) /\
    (exists pre post,
        range_chars doc_close_first 0 2 = pre ++ post /\
        minimum r = balance "(" ")" pre).
Proof.
  assert (H : valid_range doc_close_first 0 2) by (unfold valid_range; cbn; lia).
  split; [exact H|].
  exact (count_pair_minimum_is_lowest_prefix doc_close_first 0 2 "(" ")" H).
Defined.

(** ** Results of adjacent ranges *)

Lemma fold_step_min_from (o c : ascii) (chs : list ascii) (st : counters) :
  min_count st <= count st ->
  min_count (fold_left (step o c) chs st)
  = Z.min (min_count st)
          (count st + min_count (fold_left (step o c) chs (Counters 0 0))).
Proof.
  revert st. induction chs as [|ch chs IH]; intros st Hst.
  - cbn. lia.
  - cbn [fold_left].
    rewrite (IH (step o c st ch)) by (cbn; lia).
    rewrite (IH (step o c (Counters 0 0) ch)) by (cbn; lia).
    cbn [step count min_count].
    rewrite (tally_shift o c (count st)). lia.
Qed.

(** X4: for line indices 0 <= start <= mid <= end <= len(document), the
    result over (start, end) is made of the results over (start, mid) and
    (mid, end): the nets add up, and the minimum is the smaller of the first
    minimum and the first net plus the second minimum. *)
Theorem count_pair_results_compose (lines : list string) (start mid end_ : Z)
    (o c : ascii) :
  0 <= start <= mid -> mid <= end_ <= Z.of_nat (List.length lines) ->
  exists r r1 r2,
    count_pair lines start end_ o c = Ok r /\
    count_pair lines start mid o c = Ok r1 /\
    count_pair lines mid end_ o c = Ok r2 /\
    net r = net r1 + net r2 /\
    minimum r = Z.min (minimum r1) (net r1 + minimum r2).
Proof.
  intros H0 H1.
  do 3 eexists.
  split; [apply count_pair_valid; unfold valid_range; lia|].
  split; [apply count_pair_valid; unfold valid_range; lia|].
  split; [apply count_pair_valid; unfold valid_range; lia|].
  cbn [result_of net minimum].
  rewrite (range_chars_split lines start mid end_) by assumption.
  rewrite fold_left_app. split.
  - rewrite !fold_step_count. cbn [count]. lia.
  - apply fold_step_min_from. apply fold_step_min_le_count. cbn. lia.
Qed.

Lemma count_pair_results_compose_witness :
  exists r r1 r2,
    count_pair doc_close_first 0 2 "(" ")" = Ok r /\
    count_pair doc_close_first 0 1 "(" ")" = Ok r1 /\
    count_pair doc_close_first 1 2 "(" ")" = Ok r2 /\
    net r = net r1 + net r2 /\
    minimum r = Z.min (minimum r1) (net r1 + minimum r2).
Proof.
  apply (count_pair_results_compose doc_close_first 0 1 2 "(" ")"); cbn; lia.
Defined.

(** ** Negative indices *)

Lemma getitem_negative (lines : list string) (idx : Z) :
  - Z.of_nat (List.length lines) <= idx < 0 ->
  getitem lines idx = getitem lines (idx + Z.of_nat (List.length lines)).
Proof.
  intros H. unfold getitem.
  set (len := Z.of_nat (List.length lines)) in *.
  destruct (Z.ltb_spec idx 0) as [_|]; [|lia].
  destruct (Z.ltb_spec (idx + len) 0) as [|_]; [lia|]. reflexivity.
Qed.

Lemma map_shift_iota (k start : Z) (n : nat) :
  map (fun i => i + k) (iota start n) = iota (start + k) n.
Proof.
  revert start. induction n as [|n IH]; intros start; [reflexivity|].
  cbn [iota map]. rewrite IH. do 2 f_equal. lia.
Qed.

Lemma map_shift_iota_down (k start : Z) (n : nat) :
  map (fun i => i + k) (iota_down start n) = iota_down (start + k) n.
Proof.
  revert start. induction n as [|n IH]; intros start; [reflexivity|].
  cbn [iota_down map]. rewrite IH. do 2 f_equal. lia.
Qed.

Lemma scan_lines_negative (o c : ascii) (lines : list string) (idxs : list Z)
    (st : counters) :
  Forall (fun idx => - Z.of_nat (List.length lines) <= idx < 0) idxs ->
  scan_lines o c lines idxs st
  = scan_lines o c lines (map (fun i => i + Z.of_nat (List.length lines)) idxs) st.
Proof.
  intros H. revert st. induction H as [|idx idxs Hidx _ IH]; intros st.
  - reflexivity.
  - cbn [scan_lines map]. rewrite <- getitem_negative by exact Hidx.
    destruct (getitem lines idx); [|reflexivity]. cbn [bind]. apply IH.
Qed.

Lemma rev_lines_negative (o c : ascii) (lines : list string) (idxs : list Z)
    (cnt : Z) :
  Forall (fun idx => - Z.of_nat (List.length lines) <= idx < 0) idxs ->
  rev_lines o c lines idxs cnt
  = fmap (option_map (fun i => i - Z.of_nat (List.length lines)))
         (rev_lines o c lines
                    (map (fun i => i + Z.of_nat (List.length lines)) idxs) cnt).
Proof.
  intros H. revert cnt. induction H as [|idx idxs Hidx _ IH]; intros cnt.
  - reflexivity.
  - cbn [rev_lines map]. rewrite <- getitem_negative by exact Hidx.
    destruct (getitem lines idx) as [line|]; [|reflexivity]. cbn [bind].
    destruct (rev_chars o c (reversed line) cnt) as [cnt'|].
    + apply IH.
    + cbn. do 3 f_equal. lia.
Qed.

(** X5: a range written with negative indices, -len(D) <= start and
    end <= 0, is read from the end of the document: count_pair returns what
    it returns on (start + len(D), end + len(D)), and find_unmatched_open
    returns the index found there minus len(D), so the line it reports is
    not positive. *)
Theorem negative_range_wraps (lines : list string) (start end_ : Z)
    (o c : ascii) :
  - Z.of_nat (List.length lines) <= start -> end_ <= 0 ->
  count_pair lines start end_ o c
  = count_pair lines (start + Z.of_nat (List.length lines))
               (end_ + Z.of_nat (List.length lines)) o c /\
  find_unmatched_open lines start end_ o c
  = fmap (option_map (fun i => i - Z.of_nat (List.length lines)))
         (find_unmatched_open lines (start + Z.of_nat (List.length lines))
                              (end_ + Z.of_nat (List.length lines)) o c).
Proof.
  intros Hlo Hhi. set (len := Z.of_nat (List.length lines)) in *. split.
  - unfold count_pair, scan. f_equal.
    rewrite scan_lines_negative.
    + unfold range. fold len. rewrite map_shift_iota. do 2 f_equal. lia.
    + apply Forall_forall. intros x Hx. apply In_range in Hx. fold len. lia.
  - unfold find_unmatched_open, find_unmatched.
    rewrite rev_lines_negative.
    + unfold range_down. fold len. rewrite map_shift_iota_down.
      do 2 f_equal. f_equal; [lia|]. f_equal. lia.
    + apply Forall_forall. intros x Hx. unfold range_down in Hx.
      apply In_iota_down in Hx. fold len. lia.
Qed.

Lemma negative_range_wraps_witness :
  count_pair doc_example (-2) 0 "(" ")"
  = count_pair doc_example (-2 + Z.of_nat (List.length doc_example))
               (0 + Z.of_nat (List.length doc_example)) "(" ")" /\
  find_unmatched_open doc_example (-2) 0 "(" ")"
  = fmap (option_map (fun i => i - Z.of_nat (List.length doc_example)))
         (find_unmatched_open doc_example
            (-2 + Z.of_nat (List.length doc_example))
            (0 + Z.of_nat (List.length doc_example)) "(" ")").
Proof.
  apply (negative_range_wraps doc_example (-2) 0 "(" ")"); cbn; lia.
Defined.

(** ** Characters that are not delimiters *)

Lemma chars_keep_tracked (o c : ascii) (line : string) :
  chars (keep_tracked o c line)
  = filter (fun ch => (ch =? o)%char || (ch =? c)%char) (chars line).
Proof.
  unfold keep_tracked, chars at 1. apply list_ascii_of_string_of_list_ascii.
Qed.

Lemma getitem_map (f : string -> string) (lines : list string) (idx : Z) :
  getitem (map f lines) idx = fmap f (getitem lines idx).
Proof.
  unfold getitem. rewrite length_map.
  destruct (_ && _); [|reflexivity].
  rewrite nth_error_map. now destruct (nth_error lines _).
Qed.

Lemma fold_step_filter (o c : ascii) (chs : list ascii) (st : counters) :
  min_count st <= count st ->
  fold_left (step o c)
            (filter (fun ch => (ch =? o)%char || (ch =? c)%char) chs) st
  = fold_left (step o c) chs st.
Proof.
  revert st. induction chs as [|ch chs IH]; intros st Hst; [reflexivity|].
  cbn [filter].
  destruct (ch =? o)%char eqn:Eo; [|destruct (ch =? c)%char eqn:Ec]; cbn [orb].
  - cbn [fold_left]. apply IH. cbn. lia.
  - cbn [fold_left]. apply IH. cbn. lia.
  - cbn [fold_left]. rewrite IH by exact Hst. f_equal.
    unfold step, tally. rewrite Eo, Ec. destruct st as [n m]. cbn in *.
    f_equal. lia.
Qed.

Lemma scan_lines_keep_tracked (o c : ascii) (lines : list string)
    (idxs : list Z) (st : counters) :
  min_count st <= count st ->
  scan_lines o c (map (keep_tracked o c) lines) idxs st
  = scan_lines o c lines idxs st.
Proof.
  revert st. induction idxs as [|idx idxs IH]; intros st Hst; [reflexivity|].
  cbn [scan_lines]. rewrite getitem_map.
  destruct (getitem lines idx) as [line|]; [|reflexivity]. cbn [fmap bind].
  assert (Hline : scan_line o c st (keep_tracked o c line) = scan_line o c st line).
  { unfold scan_line. rewrite chars_keep_tracked. now apply fold_step_filter. }
  rewrite Hline. apply IH. now apply fold_step_min_le_count.
Qed.

Lemma rev_chars_filter (o c : ascii) (chs : list ascii) (cnt : Z) :
  rev_chars o c (filter (fun ch => (ch =? o)%char || (ch =? c)%char) chs) cnt
  = rev_chars o c chs cnt.
Proof.
  revert cnt. induction chs as [|ch chs IH]; intros cnt; [reflexivity|].
  cbn [filter rev_chars].
  destruct (ch =? o)%char eqn:Eo; [|destruct (ch =? c)%char eqn:Ec]; cbn [orb].
  - cbn [rev_chars]. rewrite Eo. now rewrite IH.
  - cbn [rev_chars]. rewrite Eo, Ec. apply IH.
  - apply IH.
Qed.

Lemma rev_lines_keep_tracked (o c : ascii) (lines : list string)
    (idxs : list Z) (cnt : Z) :
  rev_lines o c (map (keep_tracked o c) lines) idxs cnt
  = rev_lines o c lines idxs cnt.
Proof.
  revert cnt. induction idxs as [|idx idxs IH]; intros cnt; [reflexivity|].
  cbn [rev_lines]. rewrite getitem_map.
  destruct (getitem lines idx) as [line|]; [|reflexivity]. cbn [fmap bind].
  unfold reversed. rewrite chars_keep_tracked, <- filter_rev, rev_chars_filter.
  destruct (rev_chars o c (rev (chars line)) cnt); [apply IH|reflexivity].
Qed.

(** X6: characters other than the two delimiters play no part: deleting them
    from every line of the document changes neither what count_pair returns
    nor what find_unmatched_open returns, on any range. *)
Theorem other_characters_ignored (lines : list string) (start end_ : Z)
    (o c : ascii) :
  count_pair (map (keep_tracked o c) lines) start end_ o c
  = count_pair lines start end_ o c /\
  find_unmatched_open (map (keep_tracked o c) lines) start end_ o c
  = find_unmatched_open lines start end_ o c.
Proof.
  split.
  - unfold count_pair, scan. f_equal. apply scan_lines_keep_tracked. cbn. lia.
  - unfold find_unmatched_open, find_unmatched. apply rev_lines_keep_tracked.
Qed.

(** ** Failure of the reverse scan *)

Lemma rev_lines_raises_inv (o c : ascii) (lines : list string) (idxs : list Z)
    (cnt : Z) :
  rev_lines o c lines idxs cnt = IndexError ->
  exists bad, In bad idxs /\ getitem lines bad = IndexError.
Proof.
  revert cnt. induction idxs as [|idx idxs IH]; intros cnt H; [discriminate|].
  cbn [rev_lines] in H.
  destruct (getitem lines idx) as [line|] eqn:E.
  - cbn [bind] in H.
    destruct (rev_chars o c (reversed line) cnt) as [cnt'|]; [|discriminate].
    destruct (IH _ H) as [bad [Hin Hbad]]. exists bad. split; [now right|exact Hbad].
  - exists idx. split; [now left|exact E].
Qed.

(** X7: the reverse scan indexes no line that the forward scans do not: when
    find_unmatched_open fails on a range, count_pair fails on it too,
    whatever the delimiters. *)
Theorem find_failure_implies_count_failure (lines : list string)
    (start end_ : Z) (o c o' c' : ascii) :
  find_unmatched_open lines start end_ o c = IndexError ->
  count_pair lines start end_ o' c' = IndexError.
Proof.
  intros H. unfold find_unmatched_open, find_unmatched in H.
  apply rev_lines_raises_inv in H. destruct H as [bad [Hin Hbad]].
  rewrite range_down_rev in Hin. apply in_rev in Hin.
  unfold count_pair. apply fmap_raises.
  now apply (scan_lines_raises o' c' lines _ _ bad).
Qed.

Lemma find_failure_implies_count_failure_witness :
  find_unmatched_open doc_one_line 0 2 "{" "}" = IndexError /\
  count_pair doc_one_line 0 2 "(" ")" = IndexError.
Proof.
  assert (H : find_unmatched_open doc_one_line 0 2 "{" "}" = IndexError)
    by reflexivity.
  split; [exact H|].
  exact (find_failure_implies_count_failure doc_one_line 0 2 "{" "}" "(" ")" H).
Defined.

(** ** When the reverse scan finds nothing *)

Lemma find_unmatched_trace (o c : ascii) (lines : list string) (start end_ : Z) :
  valid_range lines start end_ ->
  find_unmatched o c lines start end_
  = Ok (first_zero o c 1 (reverse_trace lines start end_)).
Proof.
  intros H. unfold find_unmatched. rewrite range_down_rev.
  rewrite rev_lines_first_zero; [|apply Forall_rev; now apply valid_range_indices|lia].
  unfold reverse_trace, numbered.
  rewrite <- map_line_at_range by exact H.
  now rewrite combine_map_self, map_rev.
Qed.

Lemma map_snd_pair {A B : Type} (a : A) (l : list B) : map snd (map (pair a) l) = l.
Proof.
  induction l as [|x l IH]; [reflexivity|]. cbn. now rewrite IH.
Qed.

Lemma map_snd_trace (nl : list (Z * string)) :
  map snd (flat_map (fun il => map (pair (fst il)) (rev (chars (snd il)))) (rev nl))
  = rev (text (map snd nl)).
Proof.
  induction nl as [|x nl IH]; [reflexivity|].
  cbn [rev map]. rewrite flat_map_app, map_app, IH.
  cbn [flat_map]. rewrite app_nil_r, map_snd_pair.
  unfold text. cbn [map List.concat]. now rewrite rev_app_distr.
Qed.

Lemma map_snd_reverse_trace (lines : list string) (start end_ : Z) :
  valid_range lines start end_ ->
  map snd (reverse_trace lines start end_) = rev (range_chars lines start end_).
Proof.
  intros H. unfold reverse_trace. rewrite map_snd_trace.
  unfold numbered, range_chars.
  rewrite <- map_line_at_range by exact H.
  rewrite combine_map_self, map_map. reflexivity.
Qed.

Lemma counter_update_tally (o c : ascii) (cnt : Z) (ch : ascii) :
  counter_update o c cnt ch = cnt - tally o c 0 ch.
Proof.
  unfold counter_update, tally.
  destruct (ch =? o)%char; [lia|]. destruct (ch =? c)%char; lia.
Qed.

Lemma tally_bounds (o c : ascii) (ch : ascii) : -1 <= tally o c 0 ch <= 1.
Proof.
  unfold tally. destruct (ch =? o)%char; [lia|]. destruct (ch =? c)%char; lia.
Qed.

(** The walk ends without a zero exactly when no prefix of the trace brings
    the counter down by its starting value. *)
Lemma first_zero_none_iff (o c : ascii) (tr : list (Z * ascii)) (cnt : Z) :
  1 <= cnt ->
  first_zero o c cnt tr = None <->
  (forall p q, tr = p ++ q -> balance o c (map snd p) < cnt).
Proof.
  revert cnt. induction tr as [|[idx ch] tr IH]; intros cnt Hpos.
  - split; [|reflexivity]. intros _ p q Heq.
    symmetry in Heq. apply app_eq_nil in Heq. destruct Heq as [-> _]. cbn. lia.
  - cbn [first_zero]. rewrite counter_update_tally.
    pose proof (tally_bounds o c ch) as Hb.
    destruct (Z.eqb_spec (cnt - tally o c 0 ch) 0) as [Hz|Hnz].
    + split; [discriminate|]. intros Hall. exfalso.
      specialize (Hall [(idx, ch)] tr eq_refl). cbn in Hall. lia.
    + rewrite IH by lia. split.
      * intros Hall p q Heq. destruct p as [|x p]; [cbn; lia|].
        cbn [app] in Heq. injection Heq as Hx Heq. subst x.
        specialize (Hall p q Heq). cbn [map snd balance]. lia.
      * intros Hall p q Heq.
        specialize (Hall ((idx, ch) :: p) q). cbn [app map snd balance] in Hall.
        rewrite Heq in Hall. specialize (Hall eq_refl). lia.
Qed.

Lemma find_none_iff (o c : ascii) (lines : list string) (start end_ : Z) :
  valid_range lines start end_ ->
  find_unmatched o c lines start end_ = Ok None <->
  (forall pre post,
      range_chars lines start end_ = pre ++ post -> balance o c post <= 0).
Proof.
  intros H. rewrite find_unmatched_trace by exact H.
  pose proof (map_snd_reverse_trace lines start end_ H) as Htr.
  split.
  - intros Hnone. injection Hnone as Hnone.
    rewrite first_zero_none_iff in Hnone by lia.
    intros pre post Heq.
    rewrite Heq, rev_app_distr in Htr.
    specialize (Hnone (firstn (List.length post) (reverse_trace lines start end_))
                      (skipn (List.length post) (reverse_trace lines start end_))).
    rewrite firstn_skipn in Hnone. specialize (Hnone eq_refl).
    rewrite <- firstn_map, Htr in Hnone.
    rewrite <- (length_rev post) in Hnone.
    rewrite firstn_app, Nat.sub_diag, firstn_all in Hnone.
    cbn [firstn] in Hnone. rewrite app_nil_r, balance_rev in Hnone. lia.
  - intros Hall. f_equal. apply first_zero_none_iff; [lia|].
    intros p q Heq. rewrite Heq, map_app in Htr.
    apply (f_equal (@rev ascii)) in Htr.
    rewrite rev_involutive, rev_app_distr in Htr.
    specialize (Hall _ _ (eq_sym Htr)). rewrite balance_rev in Hall. lia.
Qed.

(** X8: on a valid range find_unmatched_open returns None exactly when no
    suffix of the text of the range has more opening than closing
    delimiters; so when the net over the range is at least 1 (the +1
    imbalance the script assumes, or more) it does return a line index. *)
Theorem find_unmatched_open_none_iff (lines : list string) (start end_ : Z)
    (o c : ascii) :
  valid_range lines start end_ ->
  (find_unmatched_open lines start end_ o c = Ok None <->
   (forall pre post,
       range_chars lines start end_ = pre ++ post -> balance o c post <= 0)) /\
  (forall r, count_pair lines start end_ o c = Ok r -> 1 <= net r ->
             exists L, find_unmatched_open lines start end_ o c = Ok (Some L)).
Proof.
  intros H. split; [now apply find_none_iff|].
  intros r Hr Hnet.
  destruct (count_pair_net o c lines start end_ H) as [r' [Hr' Hn']].
  assert (r' = r) by congruence. subst r'.
  unfold find_unmatched_open.
  pose proof (find_none_iff o c lines start end_ H) as Hiff.
  rewrite find_unmatched_trace in * by exact H.
  destruct (first_zero o c 1 (reverse_trace lines start end_)) as [L|].
  - now exists L.
  - exfalso. destruct Hiff as [Hall _].
    specialize (Hall eq_refl [] _ eq_refl). lia.
Qed.

Lemma find_unmatched_open_none_iff_witness :
  valid_range doc_example 0 3 /\
  (find_unmatched_open doc_example 0 3 "(" ")" = Ok None <->
   (forall pre post,
       range_chars doc_example 0 3 = pre ++ post -> balance "(" ")" post <= 0)) /\
  (forall r, count_pair doc_example 0 3 "(" ")" = Ok r -> 1 <= net r ->
             exists L, find_unmatched_open doc_example 0 3 "(" ")" = Ok (Some L)).
Proof.
  assert (H : valid_range doc_example 0 3) by (unfold valid_range; cbn; lia).
  split; [exact H|].
  exact (find_unmatched_open_none_iff doc_example 0 3 "(" ")" H).
Defined.

(** ** The character at which the reverse scan stops *)

Lemma rev_chars_exited (o c : ascii) (chs : list ascii) (cnt : Z) :
  1 <= cnt -> rev_chars o c chs cnt = Exited ->
  exists a b, chs = a ++ o :: b /\ balance o c a = cnt - 1.
Proof.
  revert cnt. induction chs as [|ch chs IH]; intros cnt Hpos H; [discriminate|].
  cbn [rev_chars] in H.
  destruct (Ascii.eqb_spec ch o) as [->|Ho].
  - destruct (Z.eqb_spec (cnt - 1) 0) as [Hz|Hnz].
    + exists [], chs. split; [reflexivity|]. cbn. lia.
    + destruct (IH (cnt - 1)) as [a [b [-> Hbal]]]; [lia|exact H|].
      exists (o :: a), b. split; [reflexivity|].
      cbn [balance]. unfold tally. rewrite Ascii.eqb_refl. lia.
  - destruct (Ascii.eqb_spec ch c) as [->|Hc].
    + destruct (IH (cnt + 1)) as [a [b [-> Hbal]]]; [lia|exact H|].
      exists (c :: a), b. split; [reflexivity|].
      cbn [balance]. unfold tally.
      destruct (Ascii.eqb_spec c o) as [|_]; [congruence|].
      rewrite Ascii.eqb_refl. lia.
    + destruct (IH cnt) as [a [b [-> Hbal]]]; [lia|exact H|].
      exists (ch :: a), b. split; [reflexivity|].
      cbn [balance]. unfold tally.
      destruct (Ascii.eqb_spec ch o) as [|_]; [congruence|].
      destruct (Ascii.eqb_spec ch c) as [|_]; [congruence|]. lia.
Qed.

Lemma range_chars_last (lines : list string) (e : Z) :
  0 < e <= Z.of_nat (List.length lines) ->
  range_chars lines (e - 1) e = chars (line_at lines (e - 1)).
Proof.
  intros H. unfold range_chars. replace e with (e - 1 + 1) at 2 by lia.
  rewrite slice_single by lia.
  unfold text. cbn [map List.concat]. apply app_nil_r.
Qed.

Lemma rev_lines_found_exact (o c : ascii) (lines : list string) (n : nat)
    (e cnt L : Z) :
  1 <= cnt -> 0 <= e - Z.of_nat n -> e <= Z.of_nat (List.length lines) ->
  rev_lines o c lines (iota_down (e - 1) n) cnt = Ok (Some L) ->
  e - Z.of_nat n <= L < e /\
  exists pre post,
    chars (line_at lines L) = pre ++ o :: post /\
    balance o c (post ++ range_chars lines (L + 1) e) = cnt - 1.
Proof.
  revert e cnt. induction n as [|n IH]; intros e cnt Hpos Hlo Hhi H.
  - discriminate.
  - cbn [iota_down rev_lines] in H.
    rewrite getitem_nonneg in H by lia. cbn [bind] in H.
    destruct (rev_chars o c (reversed (line_at lines (e - 1))) cnt)
      as [cnt'|] eqn:E.
    + destruct (rev_chars_continue _ _ _ _ _ Hpos E) as [Hpos' Hcnt'].
      unfold reversed in Hcnt'. rewrite balance_rev in Hcnt'.
      apply IH in H; [|lia..]. destruct H as [HL [pre [post [Hline Hbal]]]].
      split; [lia|]. exists pre, post. split; [exact Hline|].
      rewrite (range_chars_split lines (L + 1) (e - 1) e) by lia.
      rewrite app_assoc, balance_app, Hbal, range_chars_last by lia. lia.
    + injection H as <-. split; [lia|].
      destruct (rev_chars_exited _ _ _ _ Hpos E) as [a [b [Hrev Hbal]]].
      exists (rev b), (rev a). split.
      * unfold reversed in Hrev.
        apply (f_equal (@rev ascii)) in Hrev.
        rewrite rev_involutive, rev_app_distr in Hrev. cbn [rev] in Hrev.
        rewrite <- app_assoc in Hrev. exact Hrev.
      * replace (e - 1 + 1) with e by lia.
        rewrite range_chars_empty, app_nil_r, balance_rev. exact Hbal.
Qed.

(** X9: on a valid range, when find_unmatched_open returns line index L,
    line L holds an opening delimiter after which the text of the range is
    balanced (net 0), and the text of the range before that delimiter has the
    net of the whole range minus 1: it is an opening delimiter that nothing
    in the range closes when the imbalance is the +1 the script assumes. *)
Theorem find_unmatched_open_character (lines : list string) (start end_ : Z)
    (o c : ascii) (L : Z) :
  valid_range lines start end_ ->
  find_unmatched_open lines start end_ o c = Ok (Some L) ->
  start <= L < end_ /\
  exists pre post r,
    chars (line_at lines L) = pre ++ o :: post /\
    balance o c (post ++ range_chars lines (L + 1) end_) = 0 /\
    count_pair lines start end_ o c = Ok r /\
    balance o c (range_chars lines start L ++ pre) = net r - 1.
Proof.
  intros Hv Hfind. pose proof Hv as [Hs He].
  unfold find_unmatched_open, find_unmatched, range_down in Hfind.
  replace (end_ - 1 - (start - 1)) with (end_ - start) in Hfind by lia.
  apply rev_lines_found_exact in Hfind; [|lia..].
  destruct Hfind as [HL [pre [post [Hline Hbal]]]].
  rewrite Z2Nat.id in HL by lia.
  split; [lia|].
  destruct (count_pair_net o c lines start end_ Hv) as [r [Hr Hn]].
  exists pre, post, r. repeat split; [exact Hline|lia|exact Hr|].
  rewrite Hn.
  rewrite (range_chars_split lines start L end_) by lia.
  rewrite (range_chars_split lines L (L + 1) end_) by lia.
  assert (Hmid : range_chars lines L (L + 1) = chars (line_at lines L)).
  { replace L with (L + 1 - 1) at 1 3 by lia. apply range_chars_last. lia. }
  rewrite Hmid, Hline.
  replace (range_chars lines start L
           ++ (pre ++ o :: post) ++ range_chars lines (L + 1) end_)
    with ((range_chars lines start L ++ pre)
          ++ [o] ++ (post ++ range_chars lines (L + 1) end_))
    by (rewrite <- !app_assoc; reflexivity).
  rewrite (balance_app o c (range_chars lines start L ++ pre)).
  rewrite (balance_app o c [o]), Hbal.
  cbn [balance]. unfold tally. rewrite Ascii.eqb_refl. lia.
Qed.

Lemma find_unmatched_open_character_witness :
  0 <= 0 < 2 /\
  exists pre post r,
    chars (line_at doc_two_opens 0) = pre ++ "("%char :: post /\
    balance "(" ")" (post ++ range_chars doc_two_opens (0 + 1) 2) = 0 /\
    count_pair doc_two_opens 0 2 "(" ")" = Ok r /\
    balance "(" ")" (range_chars doc_two_opens 0 0 ++ pre) = net r - 1.
Proof.
  apply (find_unmatched_open_character doc_two_opens 0 2 "(" ")" 0).
  - unfold valid_range. cbn. lia.
  - reflexivity.
Defined.

(** ** The start of the range and the reverse scan *)

Lemma iota_down_app (start : Z) (a b : nat) :
  iota_down start (a + b) = iota_down start a ++ iota_down (start - Z.of_nat a) b.
Proof.
  revert start. induction a as [|a IH]; intros start.
  - cbn. f_equal. lia.
  - cbn [Nat.add iota_down app]. rewrite IH. do 3 f_equal. lia.
Qed.

Lemma rev_lines_app_found (o c : ascii) (lines : list string)
    (idxs more : list Z) (cnt L : Z) :
  rev_lines o c lines idxs cnt = Ok (Some L) ->
  rev_lines o c lines (idxs ++ more) cnt = Ok (Some L).
Proof.
  revert cnt. induction idxs as [|idx idxs IH]; intros cnt H; [discriminate|].
  cbn [app rev_lines] in *.
  destruct (getitem lines idx) as [line|]; [|discriminate]. cbn [bind] in *.
  destruct (rev_chars o c (reversed line) cnt); [now apply IH|exact H].
Qed.

(** X10: the line found by the reverse scan does not depend on where the
    range starts: if find_unmatched_open returns L on (start, end), it returns
    L on (start', end) for every start' <= start, even one outside the
    document, since the scan stops before it gets there. *)
Theorem find_unmatched_open_earlier_start (lines : list string)
    (start start' end_ : Z) (o c : ascii) (L : Z) :
  start' <= start ->
  find_unmatched_open lines start end_ o c = Ok (Some L) ->
  find_unmatched_open lines start' end_ o c = Ok (Some L).
Proof.
  intros Hle H. unfold find_unmatched_open, find_unmatched, range_down in *.
  destruct (Z.le_gt_cases end_ start) as [Hempty|Hlt].
  { replace (Z.to_nat (end_ - 1 - (start - 1))) with 0%nat in H by lia.
    discriminate. }
  replace (Z.to_nat (end_ - 1 - (start' - 1)))
    with (Z.to_nat (end_ - 1 - (start - 1)) + Z.to_nat (start - start'))%nat
    by lia.
  rewrite iota_down_app. now apply rev_lines_app_found.
Qed.

Lemma find_unmatched_open_earlier_start_witness :
  find_unmatched_open doc_example (-7) 3 "(" ")" = Ok (Some 2).
Proof.
  apply (find_unmatched_open_earlier_start doc_example 2 (-7) 3 "(" ")" 2).
  - lia.
  - reflexivity.
Defined.

(** ** What find_unmatched.py reports *)

Lemma rev_chars_exited_in (o c : ascii) (chs : list ascii) (cnt : Z) :
  rev_chars o c chs cnt = Exited -> In o chs.
Proof.
  revert cnt. induction chs as [|ch chs IH]; intros cnt H; [discriminate|].
  cbn [rev_chars] in H.
  destruct (Ascii.eqb_spec ch o) as [->|Ho]; [now left|].
  right. destruct (ch =? c)%char; now apply IH in H.
Qed.

Lemma rev_lines_found_in (o c : ascii) (lines : list string) (idxs : list Z)
    (cnt L : Z) :
  rev_lines o c lines idxs cnt = Ok (Some L) ->
  In L idxs /\ exists line, getitem lines L = Ok line /\ In o (chars line).
Proof.
  revert cnt. induction idxs as [|idx idxs IH]; intros cnt H; [discriminate|].
  cbn [rev_lines] in H.
  destruct (getitem lines idx) as [line|] eqn:E; [|discriminate]. cbn [bind] in H.
  destruct (rev_chars o c (reversed line) cnt) as [cnt'|] eqn:R.
  - destruct (IH _ H) as [Hin Hline]. split; [now right|exact Hline].
  - injection H as <-. split; [now left|]. exists line. split; [exact E|].
    apply rev_chars_exited_in in R. unfold reversed in R. now apply in_rev in R.
Qed.

(** X11: whenever find_unmatched.py ends by SystemExit, on any document and
    range, it has printed exactly one line, "Unmatched { likely opened at
    line n", with start < n <= end, and [lines[n-1]] exists and contains a
    '{'. *)
Theorem find_unmatched_py_report (lines : list string) (start end_ : Z) :
  status (find_unmatched_py lines start end_) = SystemExit ->
  exists n line,
    stdout (find_unmatched_py lines start end_)
    = [[Str "Unmatched { likely opened at line"; Int n]] /\
    start < n <= end_ /\
    getitem lines (n - 1) = Ok line /\
    In "{"%char (chars line).
Proof.
  unfold find_unmatched_py.
  destruct (find_unmatched "{" "}" lines start end_) as [[L|]|] eqn:E;
    cbn [status stdout]; try discriminate.
  intros _. unfold find_unmatched in E.
  apply rev_lines_found_in in E. destruct E as [Hin [line [Hget Hch]]].
  unfold range_down in Hin. apply In_iota_down in Hin.
  exists (line_number L), line. unfold line_number.
  split; [reflexivity|]. split; [lia|].
  replace (L + 1 - 1) with L by lia. split; assumption.
Qed.

Lemma find_unmatched_py_report_witness :
  exists n line,
    stdout (find_unmatched_py doc_curlies 0 3)
    = [[Str "Unmatched { likely opened at line"; Int n]] /\
    0 < n <= 3 /\
    getitem doc_curlies (n - 1) = Ok line /\
    In "{"%char (chars line).
Proof.
  apply (find_unmatched_py_report doc_curlies 0 3). reflexivity.
Defined.

(** ** Splitting the file into lines *)




Lemma chars_of_list (l : list ascii) : chars (string_of_list_ascii l) = l.
Proof. apply list_ascii_of_string_of_list_ascii. Qed.




(** ** Splitting the decoded text into lines *)

Lemma split_cp_char (cur : list codepoint) (cp : codepoint)
    (rest : list codepoint) :
  is_boundary cp = false ->
  split_cp cur (cp :: rest) = split_cp (cp :: cur) rest.
Proof. intros H. cbn [split_cp]. now rewrite H. Qed.

(** After a boundary the next line starts either right behind it or, for
    \r\n, one character further; in the second case the text behind the \r
    alone would begin with an empty line. *)
Lemma split_cp_break (cur : list codepoint) (cp : codepoint)
    (rest : list codepoint) :
  is_boundary cp = true ->
  split_cp cur (cp :: rest) = rev cur :: split_cp [] rest
  \/
  exists rest',
    rest = 10%N :: rest' /\
    split_cp cur (cp :: rest) = rev cur :: split_cp [] rest' /\
    split_cp [] rest = [] :: split_cp [] rest'.
Proof.
  intros H. cbn [split_cp]. rewrite H.
  destruct rest as [|cp' rest']; [now left|].
  destruct (N.eqb_spec cp 13) as [->|Hr]; [|now left].
  destruct (N.eqb_spec cp' 10) as [->|Hn]; [|now left].
  cbn [andb]. right. exists rest'. repeat split.
  destruct rest'; reflexivity.
Qed.

Lemma concat_split_cp (s cur : list codepoint) :
  List.concat (split_cp cur s)
  = rev cur ++ filter (fun cp => negb (is_boundary cp)) s.
Proof.
  revert cur. induction s as [|cp rest IH]; intros cur.
  - destruct cur as [|x cur]; [reflexivity|].
    cbn [split_cp filter List.concat]. reflexivity.
  - cbn [filter]. destruct (is_boundary cp) eqn:E; cbn [negb].
    + destruct (split_cp_break cur cp rest E)
        as [->|[rest' [Hrest [-> Hnext]]]];
        cbn [List.concat]; f_equal.
      * apply (IH []).
      * specialize (IH []). rewrite Hnext in IH. exact IH.
    + rewrite split_cp_char by exact E. rewrite IH. cbn [rev].
      now rewrite <- app_assoc.
Qed.

Lemma split_cp_no_boundary (s cur : list codepoint) :
  Forall (fun cp => is_boundary cp = false) cur ->
  Forall (Forall (fun cp => is_boundary cp = false)) (split_cp cur s).
Proof.
  revert cur. induction s as [|cp rest IH]; intros cur Hcur.
  - destruct cur as [|x cur]; [constructor|].
    cbn [split_cp]. constructor; [|constructor]. now apply Forall_rev.
  - destruct (is_boundary cp) eqn:E.
    + assert (Hline : Forall (fun cp => is_boundary cp = false) (rev cur))
        by now apply Forall_rev.
      destruct (split_cp_break cur cp rest E)
        as [->|[rest' [Hrest [-> Hnext]]]]; constructor; try exact Hline.
      * apply IH. constructor.
      * specialize (IH [] (Forall_nil _)). rewrite Hnext in IH.
        now inversion IH.
    + rewrite split_cp_char by exact E. apply IH. now constructor.
Qed.

(** X12: no line that [splitlines] returns contains a line-boundary
    character (\n, \v, \f, \r, \x1c, \x1d, \x1e, \x85, U+2028, U+2029), so
    every boundary of the text ends a line. *)
Theorem splitlines_no_linebreak (t : list codepoint) :
  Forall (fun line => forall cp, In cp line -> is_boundary cp = false)
         (splitlines_cp t).
Proof.
  unfold splitlines_cp.
  pose proof (split_cp_no_boundary t [] (Forall_nil _)) as H.
  eapply Forall_impl; [|exact H].
  intros line Hline. now apply Forall_forall.
Qed.

Lemma count_occ_filter_kept_cp (f : codepoint -> bool) (l : list codepoint)
    (x : codepoint) :
  f x = true ->
  count_occ N.eq_dec (filter f l) x = count_occ N.eq_dec l x.
Proof.
  intros Hx. induction l as [|y l IH]; [reflexivity|].
  cbn [filter count_occ]. destruct (N.eq_dec y x) as [->|Hne].
  - rewrite Hx. cbn [count_occ]. destruct (N.eq_dec x x); [|congruence].
    now rewrite IH.
  - destruct (f y); [|exact IH]. cbn [count_occ].
    destruct (N.eq_dec y x); [congruence|exact IH].
Qed.

(** X13: the lines of [splitlines], put end to end, are the decoded text
    without its line-boundary characters: no other character is lost, added
    or moved, and every character that is not a line boundary occurs in the
    lines as often as in the text. *)
Theorem splitlines_text (t : list codepoint) :
  List.concat (splitlines_cp t)
  = filter (fun cp => negb (is_boundary cp)) t /\
  (forall cp, is_boundary cp = false ->
              count_occ N.eq_dec (List.concat (splitlines_cp t)) cp
              = count_occ N.eq_dec t cp).
Proof.
  unfold splitlines_cp. rewrite concat_split_cp. cbn [rev app].
  split; [reflexivity|].
  intros cp Hcp. apply count_occ_filter_kept_cp. now rewrite Hcp.
Qed.

(** ** Texts below U+0100 *)

Lemma N_of_ascii_eqb (a b : ascii) :
  (N_of_ascii a =? N_of_ascii b)%N = (a =? b)%char.
Proof.
  destruct (Ascii.eqb_spec a b) as [->|Hne].
  - apply N.eqb_refl.
  - apply N.eqb_neq. intros H. apply Hne.
    rewrite <- (ascii_N_embedding a), <- (ascii_N_embedding b). now rewrite H.
Qed.

Lemma is_boundary_of_ascii (ch : ascii) :
  is_boundary (N_of_ascii ch) = is_linebreak ch.
Proof.
  unfold is_boundary, is_linebreak. cbv zeta.
  pose proof (N_ascii_bounded ch) as Hb.
  destruct (N.eqb_spec (N_of_ascii ch) 8232) as [|_]; [lia|].
  destruct (N.eqb_spec (N_of_ascii ch) 8233) as [|_]; [lia|].
  now rewrite !orb_false_r.
Qed.

(** The delimiters of the scripts are told apart after [read_char] as well
    as before it. *)
Lemma read_char_delimiter (cp : codepoint) (d : ascii) :
  In d ["("; ")"; "{"; "}"]%char ->
  (read_char cp =? d)%char = (cp =? N_of_ascii d)%N.
Proof.
  intros Hd. unfold read_char.
  destruct (N.ltb_spec cp 256) as [Hlt|Hge].
  - rewrite <- N_of_ascii_eqb. now rewrite N_ascii_embedding.
  - pose proof (N_ascii_bounded d) as Hb.
    destruct (N.eqb_spec cp (N_of_ascii d)) as [|_]; [lia|].
    cbn [In] in Hd.
    destruct Hd as [<-|[<-|[<-|[<-|[]]]]]; reflexivity.
Qed.

Lemma read_char_of_ascii (ch : ascii) : read_char (N_of_ascii ch) = ch.
Proof.
  unfold read_char. pose proof (N_ascii_bounded ch) as Hb.
  destruct (N.ltb_spec (N_of_ascii ch) 256) as [_|]; [|lia].
  apply ascii_N_embedding.
Qed.

Lemma split_cp_of_ascii (s cur : list ascii) :
  split_cp (map N_of_ascii cur) (map N_of_ascii s)
  = map (fun line => map N_of_ascii (chars line)) (split_from cur s).
Proof.
  revert cur. induction s as [|ch rest IH]; intros cur.
  - destruct cur as [|x cur]; [reflexivity|].
    cbn [split_from map split_cp]. rewrite chars_of_list.
    change (N_of_ascii x :: map N_of_ascii cur) with (map N_of_ascii (x :: cur)).
    now rewrite map_rev.
  - cbn [map split_cp split_from]. rewrite is_boundary_of_ascii.
    destruct (is_linebreak ch) eqn:E.
    + cbn [map]. rewrite chars_of_list, map_rev. f_equal.
      destruct rest as [|ch' rest']; [reflexivity|].
      cbn [map].
      change 13%N with (N_of_ascii "013"). change 10%N with (N_of_ascii "010").
      rewrite !N_of_ascii_eqb.
      destruct (Ascii.eqb_spec ch "013") as [->|Hr]; cbn [andb];
        [|apply (IH [])].
      destruct (Ascii.eqb_spec ch' "010") as [->|Hn]; [|apply (IH [])].
      specialize (IH []). cbn [map] in IH.
      destruct rest' as [|ch'' rest'']; [reflexivity|].
      cbn in IH. injection IH as IH. exact IH.
    + apply (IH (ch :: cur)).
Qed.

(** On a text below U+0100 the two splittings give the same lines, and the
    scripts read them as they are. *)
Lemma splitlines_below_256 (file_text : string) :
  splitlines_cp (map N_of_ascii (chars file_text))
  = map (fun line => map N_of_ascii (chars line)) (splitlines file_text) /\
  Script.lines_of (map N_of_ascii (chars file_text)) = splitlines file_text.
Proof.
  assert (H : splitlines_cp (map N_of_ascii (chars file_text))
              = map (fun line => map N_of_ascii (chars line))
                    (splitlines file_text)).
  { unfold splitlines_cp, splitlines. apply (split_cp_of_ascii _ []). }
  split; [exact H|].
  unfold Script.lines_of. rewrite H, map_map.
  rewrite <- (map_id (splitlines file_text)) at 2.
  apply map_ext. intros line. unfold read_line.
  rewrite map_map.
  rewrite (map_ext _ (fun ch => ch) read_char_of_ascii), map_id.
  apply string_of_list_ascii_of_string.
Qed.



(** ** The scripts with their fixed range *)

Lemma find_unmatched_raises_beyond (o c : ascii) (lines : list string)
    (start end_ : Z) :
  start < end_ -> Z.of_nat (List.length lines) < end_ ->
  find_unmatched o c lines start end_ = IndexError.
Proof.
  intros Hlt Hhi. unfold find_unmatched, range_down.
  replace (Z.to_nat (end_ - 1 - (start - 1)))
    with (S (Z.to_nat (end_ - 1 - start))) by lia.
  cbn [iota_down rev_lines].
  rewrite getitem_out_of_bounds by (right; lia). reflexivity.
Qed.

Lemma count_balance_py_status (lines : list string) (start end_ : Z) :
  status (count_balance_py lines start end_) = Traceback <->
  scan "(" ")" lines start end_ = IndexError.
Proof.
  unfold count_balance_py. rewrite !net_pass_scan.
  destruct (scan "(" ")" lines start end_) as [p|] eqn:Ep; cbn.
  - destruct (scan "{" "}" lines start end_) as [q|] eqn:Eq; cbn.
    + split; discriminate.
    + apply (scan_raises_any_delimiters _ _ "(" ")") in Eq. congruence.
  - split; reflexivity.
Qed.

(** X15: when [read_text] returns a text, each of the four scripts, with
    the range they fix (lines 15763 to 16871), dies of the IndexError of
    [lines[idx]] exactly when [splitlines] gives fewer than 16871 lines; on a
    longer file none of them does. *)
Theorem scripts_need_16871_lines (t : list codepoint) :
  (Script.dies_of_index_error (Script.count_parens (ReadText t)) <->
   Z.of_nat (List.length (splitlines_cp t)) < 16871) /\
  (Script.dies_of_index_error (Script.count_curlies (ReadText t)) <->
   Z.of_nat (List.length (splitlines_cp t)) < 16871) /\
  (Script.dies_of_index_error (Script.count_balance (ReadText t)) <->
   Z.of_nat (List.length (splitlines_cp t)) < 16871) /\
  (Script.dies_of_index_error (Script.find_unmatched (ReadText t)) <->
   Z.of_nat (List.length (splitlines_cp t)) < 16871).
Proof.
  cbn [Script.dies_of_index_error Script.count_parens Script.count_curlies
       Script.count_balance Script.find_unmatched].
  replace (List.length (splitlines_cp t))
    with (List.length (Script.lines_of t))
    by (unfold Script.lines_of; apply length_map).
  set (lines := Script.lines_of t).
  assert (Hscan : forall o c,
             scan o c lines Script.start Script.end_ = IndexError <->
             Z.of_nat (List.length lines) < 16871).
  { intros o c. rewrite scan_raises_iff. unfold Script.start, Script.end_. lia. }
  repeat split.
  - unfold count_parens_py. intros H.
    apply (Hscan "("%char ")"%char).
    destruct (scan "(" ")" lines Script.start Script.end_);
      [discriminate H|reflexivity].
  - intros H. apply (Hscan "("%char ")"%char) in H.
    unfold count_parens_py. now rewrite H.
  - unfold count_curlies_py. intros H.
    apply (Hscan "{"%char "}"%char).
    destruct (scan "{" "}" lines Script.start Script.end_);
      [discriminate H|reflexivity].
  - intros H. apply (Hscan "{"%char "}"%char) in H.
    unfold count_curlies_py. now rewrite H.
  - intros H. apply count_balance_py_status in H. now apply Hscan in H.
  - intros H. apply count_balance_py_status. now apply Hscan.
  - unfold find_unmatched_py. intros H.
    destruct (Z.lt_ge_cases (Z.of_nat (List.length lines)) 16871) as [|Hge];
      [assumption|exfalso].
    rewrite find_unmatched_trace in H
      by (unfold valid_range, Script.start, Script.end_; lia).
    destruct (first_zero _ _ _ _); discriminate H.
  - intros H. unfold find_unmatched_py.
    rewrite find_unmatched_raises_beyond;
      [reflexivity|unfold Script.start, Script.end_; lia..].
Qed.

(** ** Lines outside the range *)

(** X16: on a valid range nothing outside [lines[start:end]] is looked at: two
    documents that agree on the lines of the range give the same count_pair
    result and the same find_unmatched_open result, whatever their other
    lines are. *)
Theorem scans_depend_on_slice_only (lines lines' : list string)
    (start end_ : Z) (o c : ascii) :
  valid_range lines start end_ -> valid_range lines' start end_ ->
  slice lines start end_ = slice lines' start end_ ->
  count_pair lines start end_ o c = count_pair lines' start end_ o c /\
  find_unmatched_open lines start end_ o c
  = find_unmatched_open lines' start end_ o c.
Proof.
  intros H H' Heq. split.
  - rewrite !count_pair_valid by assumption.
    unfold range_chars. now rewrite Heq.
  - unfold find_unmatched_open. rewrite !find_unmatched_trace by assumption.
    unfold reverse_trace, numbered. now rewrite Heq.
Qed.

Lemma scans_depend_on_slice_only_witness :
  count_pair doc_example 2 3 "(" ")"
  = count_pair ["zz"; "yy"; "c("; "))))"]%string 2 3 "(" ")" /\
  find_unmatched_open doc_example 2 3 "(" ")"
  = find_unmatched_open ["zz"; "yy"; "c("; "))))"]%string 2 3 "(" ")".
Proof.
  apply (scans_depend_on_slice_only doc_example
           ["zz"; "yy"; "c("; "))))"]%string 2 3 "(" ")").
  - unfold valid_range. cbn. lia.
  - unfold valid_range. cbn. lia.
  - reflexivity.
Defined.
